(** * QuickCommand: the suggestion pipeline and the executors

    A shallow embedding of [ai/command_ai.py], [ai/prompts.py],
    [config/settings.py] and the two handlers under [shells/], with the
    properties of the written specification stated and proved over it.

    Python [str] values are modelled by [string]: a sequence of 8-bit
    characters holding the UTF-8 encoding of the text.  Substring search,
    [startswith], [split] and concatenation agree with Python on that
    encoding.  [lower] and [strip] are modelled on the ASCII range (the
    letters [A-Z]; the white space characters 9-13, 28-31 and 32); characters
    of code 128 and above are left untouched.  [len] is only ever applied to
    the ASCII trigger phrases of the fallback table. *)

From Stdlib Require Import String Ascii List Bool Arith NArith ZArith Lia.
Import ListNotations.
Open Scope string_scope.

(** ** Python string primitives used by the sources *)

Module PyStr.

(** [str.isspace] on one character of the ASCII range. *)
Definition is_space (c : ascii) : bool :=
  let n := nat_of_ascii c in
  ((9 <=? n)%nat && (n <=? 13)%nat) || ((28 <=? n)%nat && (n <=? 32)%nat).

Definition lower_char (c : ascii) : ascii :=
  let n := nat_of_ascii c in
  if ((65 <=? n)%nat && (n <=? 90)%nat) then ascii_of_nat (n + 32) else c.

(** [s.lower()] *)
Fixpoint lower (s : string) : string :=
  match s with
  | EmptyString => EmptyString
  | String c r => String (lower_char c) (lower r)
  end.

Fixpoint lstrip (s : string) : string :=
  match s with
  | EmptyString => EmptyString
  | String c r => if is_space c then lstrip r else s
  end.

Fixpoint rstrip (s : string) : string :=
  match s with
  | EmptyString => EmptyString
  | String c r =>
      match rstrip r with
      | EmptyString => if is_space c then EmptyString else String c EmptyString
      | r' => String c r'
      end
  end.

(** [s.strip()] *)
Definition strip (s : string) : string := rstrip (lstrip s).

(** [s.startswith(p)] *)
Fixpoint startswith (s p : string) {struct p} : bool :=
  match p with
  | EmptyString => true
  | String a p' =>
      match s with
      | EmptyString => false
      | String b s' => Ascii.eqb a b && startswith s' p'
      end
  end.

(** [sub in s] *)
Fixpoint contains (sub s : string) : bool :=
  if startswith s sub then true
  else match s with
       | EmptyString => false
       | String _ r => contains sub r
       end.

(** [s.split(sep)] for a one-character separator: never an empty list. *)
Fixpoint split (sep : ascii) (s : string) : list string :=
  match s with
  | EmptyString => [EmptyString]
  | String c r =>
      if Ascii.eqb c sep then EmptyString :: split sep r
      else match split sep r with
           | l :: ls => String c l :: ls
           | [] => [String c EmptyString]
           end
  end.

(** [s.split(sep, 1)]: at most one cut, at the first separator. *)
Fixpoint split1 (sep : ascii) (s : string) : list string :=
  match s with
  | EmptyString => [EmptyString]
  | String c r =>
      if Ascii.eqb c sep then [EmptyString; r]
      else match split1 sep r with
           | l :: ls => String c l :: ls
           | [] => [String c EmptyString]
           end
  end.

(** The truth value of a string: [bool(s)]. *)
Definition truthy (s : string) : bool :=
  match s with EmptyString => false | _ => true end.

Definition dquote : ascii := ascii_of_nat 34.

(** Source literals that contain a double quote are written here with a
    back-quote in its place (the sources contain no back-quote); [qq] puts
    the double quotes back. *)
Fixpoint qq (s : string) : string :=
  match s with
  | EmptyString => EmptyString
  | String c r => String (if Ascii.eqb c "`" then dquote else c) (qq r)
  end.

End PyStr.


(** ** Exceptions

    A Python call either returns a value or raises.  Only the exception
    classes that the sources can meet on the modelled paths are named. *)

Inductive exn : Type :=
| AttributeError
| IndexError
| BackendError (msg : string).

Inductive result (A : Type) : Type :=
| Ok (a : A)
| Raise (e : exn).

Arguments Ok {A} a.
Arguments Raise {A} e.

Definition bind {A B : Type} (r : result A) (k : A -> result B) : result B :=
  match r with
  | Ok a => k a
  | Raise e => Raise e
  end.

(** ** The JSON decoder of the standard library ([json.loads])

    The decoder is library code; it is modelled here after the scanner of
    CPython's [json] module in its default (strict) mode: white space is
    space, tab, line feed and carriage return; the literals [null], [true],
    [false], [NaN], [Infinity] and [-Infinity]; numbers made of an
    optional minus sign, an integer part ([0], or a digit [1-9] and more
    digits), an optional fraction (a dot and digits) and an optional exponent
    ([e] or [E], an optional sign, digits); strings with the simple
    escapes and [uXXXX] escapes (surrogate pairs joined); objects and arrays
    without trailing commas; nothing but white space after the value.  A
    number is kept as its lexeme, since no modelled code computes with it.
    The interpreter's recursion limit is not modelled. *)

Module Json.

Set Warnings "-register-all".

Import PyStr.

Inductive json : Type :=
| JNull
| JBool (b : bool)
| JNum (lexeme : string)
| JStr (s : string)
| JArr (items : list json)
| JObj (members : list (string * json)).

(** A Python [dict] with string keys, in insertion order. *)
Definition dict : Type := list (string * json).

Fixpoint dict_get (k : string) (d : dict) : option json :=
  match d with
  | [] => None
  | (k', v) :: r => if String.eqb k k' then Some v else dict_get k r
  end.

(** [d[k] = v]: an existing key keeps its place and takes the new value. *)
Fixpoint dict_set (k : string) (v : json) (d : dict) : dict :=
  match d with
  | [] => [(k, v)]
  | (k', v') :: r =>
      if String.eqb k k' then (k, v) :: r else (k', v') :: dict_set k v r
  end.

(** [d.get(k, default)] *)
Definition dict_get_default (k : string) (default : json) (d : dict) : json :=
  match dict_get k d with
  | Some v => v
  | None => default
  end.

Definition is_ws (c : ascii) : bool :=
  Ascii.eqb c " " || Ascii.eqb c "009" || Ascii.eqb c "010" || Ascii.eqb c "013".

Fixpoint skip_ws (s : string) : string :=
  match s with
  | EmptyString => EmptyString
  | String c r => if is_ws c then skip_ws r else s
  end.

Definition is_digit (c : ascii) : bool :=
  let n := nat_of_ascii c in ((48 <=? n)%nat && (n <=? 57)%nat).

Definition hex_val (c : ascii) : option N :=
  let n := N_of_ascii c in
  if ((48 <=? n) && (n <=? 57))%N then Some (n - 48)%N
  else if ((65 <=? n) && (n <=? 70))%N then Some (n - 55)%N
  else if ((97 <=? n) && (n <=? 102))%N then Some (n - 87)%N
  else None.

Definition hex4 (a b c d : ascii) : option N :=
  match hex_val a, hex_val b, hex_val c, hex_val d with
  | Some x, Some y, Some z, Some w => Some (((x * 16 + y) * 16 + z) * 16 + w)%N
  | _, _, _, _ => None
  end.

Definition chr (n : N) : string := String (ascii_of_N n) EmptyString.

(** The UTF-8 encoding of a code point (a lone surrogate is encoded like any
    other three-byte code point). *)
Definition utf8 (u : N) : string :=
  if (u <? 128)%N then chr u
  else if (u <? 2048)%N then chr (192 + u / 64) ++ chr (128 + u mod 64)
  else if (u <? 65536)%N then
    chr (224 + u / 4096) ++ chr (128 + (u / 64) mod 64) ++ chr (128 + u mod 64)
  else
    chr (240 + u / 262144) ++ chr (128 + (u / 4096) mod 64)
      ++ chr (128 + (u / 64) mod 64) ++ chr (128 + u mod 64).

Definition is_high_surrogate (u : N) : bool := ((55296 <=? u) && (u <=? 56319))%N.
Definition is_low_surrogate (u : N) : bool := ((56320 <=? u) && (u <=? 57343))%N.
Definition join_surrogates (hi lo : N) : N :=
  (65536 + (hi - 55296) * 1024 + (lo - 56320))%N.

(** The one-letter escapes of a JSON string. *)
Definition unescape (e : ascii) : option ascii :=
  if Ascii.eqb e dquote then Some dquote
  else if Ascii.eqb e "\" then Some "\"%char
  else if Ascii.eqb e "/" then Some "/"%char
  else if Ascii.eqb e "b" then Some "008"%char
  else if Ascii.eqb e "f" then Some "012"%char
  else if Ascii.eqb e "n" then Some "010"%char
  else if Ascii.eqb e "r" then Some "013"%char
  else if Ascii.eqb e "t" then Some "009"%char
  else None.

Definition flush (pending : option N) : string :=
  match pending with
  | Some hi => utf8 hi
  | None => EmptyString
  end.

Definition emit (p : string) (o : option (string * string)) : option (string * string) :=
  match o with
  | Some (x, rest) => Some (p ++ x, rest)
  | None => None
  end.

(** The body of a string, after its opening quote: the decoded text and what
    follows the closing quote.  [pending] is a high surrogate read from the
    previous escape and not yet written out. *)
Fixpoint scanstring (pending : option N) (s : string) : option (string * string) :=
  match s with
  | EmptyString => None
  | String c r =>
      if Ascii.eqb c dquote then Some (flush pending, r)
      else if Ascii.eqb c "\" then
        match r with
        | EmptyString => None
        | String e r1 =>
            if Ascii.eqb e "u" then
              match r1 with
              | String h1 (String h2 (String h3 (String h4 r2))) =>
                  match hex4 h1 h2 h3 h4 with
                  | None => None
                  | Some u =>
                      match pending with
                      | Some hi =>
                          if is_low_surrogate u
                          then emit (utf8 (join_surrogates hi u)) (scanstring None r2)
                          else if is_high_surrogate u
                          then emit (utf8 hi) (scanstring (Some u) r2)
                          else emit (utf8 hi ++ utf8 u) (scanstring None r2)
                      | None =>
                          if is_high_surrogate u then scanstring (Some u) r2
                          else emit (utf8 u) (scanstring None r2)
                      end
                  end
              | _ => None
              end
            else
              match unescape e with
              | Some x => emit (flush pending ++ String x EmptyString) (scanstring None r1)
              | None => None
              end
        end
      else if (nat_of_ascii c <? 32)%nat then None
      else emit (flush pending ++ String c EmptyString) (scanstring None r)
  end.

Fixpoint span_digits (s : string) : string * string :=
  match s with
  | EmptyString => (EmptyString, EmptyString)
  | String c r =>
      if is_digit c then let '(d, rest) := span_digits r in (String c d, rest)
      else (EmptyString, s)
  end.

(** The integer part of a number: [0] or a digit [1-9] and more digits. *)
Definition scan_int (s : string) : option (string * string) :=
  match s with
  | String c r =>
      if Ascii.eqb c "0" then Some ("0", r)
      else if is_digit c then let '(d, rest) := span_digits r in Some (String c d, rest)
      else None
  | EmptyString => None
  end.

(** An optional fraction: a dot and at least one digit, or nothing. *)
Definition scan_frac (s : string) : string * string :=
  match s with
  | String c r =>
      if Ascii.eqb c "." then
        match span_digits r with
        | (EmptyString, _) => (EmptyString, s)
        | (d, rest) => (String c d, rest)
        end
      else (EmptyString, s)
  | EmptyString => (EmptyString, s)
  end.

(** An optional exponent: [e] or [E], an optional sign, at least one digit. *)
Definition scan_exp (s : string) : string * string :=
  match s with
  | String c r =>
      if Ascii.eqb c "e" || Ascii.eqb c "E" then
        let '(sign, r1) :=
          match r with
          | String g r' =>
              if Ascii.eqb g "+" || Ascii.eqb g "-" then (String g EmptyString, r')
              else (EmptyString, r)
          | EmptyString => (EmptyString, r)
          end in
        match span_digits r1 with
        | (EmptyString, _) => (EmptyString, s)
        | (d, rest) => (String c (sign ++ d), rest)
        end
      else (EmptyString, s)
  | EmptyString => (EmptyString, s)
  end.

Definition scan_number (s : string) : option (string * string) :=
  let '(sign, r0) :=
    match s with
    | String c r => if Ascii.eqb c "-" then (String c EmptyString, r) else (EmptyString, s)
    | EmptyString => (EmptyString, s)
    end in
  match scan_int r0 with
  | None => None
  | Some (i, r1) =>
      let '(f, r2) := scan_frac r1 in
      let '(e, r3) := scan_exp r2 in
      Some (sign ++ i ++ f ++ e, r3)
  end.

(** [strip_prefix p s]: what follows [p] when [s] starts with [p]. *)
Fixpoint strip_prefix (p s : string) : option string :=
  match p, s with
  | EmptyString, _ => Some s
  | String a p', String b s' => if Ascii.eqb a b then strip_prefix p' s' else None
  | String _ _, EmptyString => None
  end.

(** The outcome of scanning one value. *)
Inductive scan : Type :=
| Scanned (v : json) (rest : string)
| Malformed
| OutOfFuel.

(** The literals and the numbers: every value that is not a string, an
    object or an array. *)
Definition scan_atom (s : string) : scan :=
  match strip_prefix "null" s with
  | Some r => Scanned JNull r
  | None =>
  match strip_prefix "true" s with
  | Some r => Scanned (JBool true) r
  | None =>
  match strip_prefix "false" s with
  | Some r => Scanned (JBool false) r
  | None =>
  match strip_prefix "NaN" s with
  | Some r => Scanned (JNum "NaN") r
  | None =>
  match strip_prefix "Infinity" s with
  | Some r => Scanned (JNum "Infinity") r
  | None =>
  match strip_prefix "-Infinity" s with
  | Some r => Scanned (JNum "-Infinity") r
  | None =>
  match scan_number s with
  | Some (n, r) => Scanned (JNum n) r
  | None => Malformed
  end end end end end end end.

(** [scan_once]: one value at the head of [s].  [parse_members] reads the
    members of an object from a key on, [parse_elements] the elements of an
    array from a value on; both hold what was read so far. *)
Fixpoint scan_once (fuel : nat) (s : string) {struct fuel} : scan :=
  match fuel with
  | O => OutOfFuel
  | S f =>
      match s with
      | EmptyString => Malformed
      | String c r =>
          if Ascii.eqb c dquote then
            match scanstring None r with
            | Some (x, rest) => Scanned (JStr x) rest
            | None => Malformed
            end
          else if Ascii.eqb c "{" then
            match skip_ws r with
            | String c1 r1 =>
                if Ascii.eqb c1 "}" then Scanned (JObj []) r1
                else parse_members f (String c1 r1) []
            | EmptyString => Malformed
            end
          else if Ascii.eqb c "[" then
            match skip_ws r with
            | String c1 r1 =>
                if Ascii.eqb c1 "]" then Scanned (JArr []) r1
                else parse_elements f (String c1 r1) []
            | EmptyString => Malformed
            end
          else scan_atom s
      end
  end

with parse_members (fuel : nat) (s : string) (acc : dict) {struct fuel} : scan :=
  match fuel with
  | O => OutOfFuel
  | S f =>
      match s with
      | EmptyString => Malformed
      | String c r =>
          if Ascii.eqb c dquote then
            match scanstring None r with
            | None => Malformed
            | Some (k, r1) =>
                match skip_ws r1 with
                | EmptyString => Malformed
                | String c2 r2 =>
                    if Ascii.eqb c2 ":" then
                      match scan_once f (skip_ws r2) with
                      | Scanned v r3 =>
                          match skip_ws r3 with
                          | EmptyString => Malformed
                          | String c4 r4 =>
                              if Ascii.eqb c4 "}" then Scanned (JObj (dict_set k v acc)) r4
                              else if Ascii.eqb c4 ","
                              then parse_members f (skip_ws r4) (dict_set k v acc)
                              else Malformed
                          end
                      | Malformed => Malformed
                      | OutOfFuel => OutOfFuel
                      end
                    else Malformed
                end
            end
          else Malformed
      end
  end

with parse_elements (fuel : nat) (s : string) (acc : list json) {struct fuel} : scan :=
  match fuel with
  | O => OutOfFuel
  | S f =>
      match scan_once f s with
      | Scanned v r1 =>
          match skip_ws r1 with
          | EmptyString => Malformed
          | String c2 r2 =>
              if Ascii.eqb c2 "]" then Scanned (JArr (acc ++ [v])) r2
              else if Ascii.eqb c2 ","
              then parse_elements f (skip_ws r2) (acc ++ [v])
              else Malformed
          end
      | Malformed => Malformed
      | OutOfFuel => OutOfFuel
      end
  end.

(** Fuel that always suffices for a text of this length. *)
Definition fuel_for (s : string) : nat := 2 * String.length s + 2.

(** [json.loads(s)]; [None] stands for [json.JSONDecodeError]. *)
Definition json_loads (s : string) : option json :=
  let s0 := skip_ws s in
  match scan_once (fuel_for s0) s0 with
  | Scanned v rest =>
      match skip_ws rest with
      | EmptyString => Some v
      | _ => None
      end
  | _ => None
  end.

End Json.


(** ** Settings ([config/settings.py])

    The fields the suggestion engine reads.  The confirmation and output
    switches of the data class play no part in the modelled code. *)

Module Settings.

Record Settings : Type := {
  ai_provider : string;
  openai_api_key : option string;
  gemini_api_key : option string;
  ai_model : string;
  openai_model : string;
  default_shell : string
}.

Definition valid_providers : list string := ["openai"; "gemini"; "ollama"; "fallback"].
Definition valid_shells : list string := ["powershell"; "python"].

Definition mem (x : string) (l : list string) : bool := existsb (String.eqb x) l.

(** [Settings._validate]: an unknown provider becomes [fallback], an unknown
    shell becomes [powershell]; the model names are only warned about. *)
Definition _validate (st : Settings) : Settings :=
  {| ai_provider := if mem (ai_provider st) valid_providers then ai_provider st else "fallback";
     openai_api_key := openai_api_key st;
     gemini_api_key := gemini_api_key st;
     ai_model := ai_model st;
     openai_model := openai_model st;
     default_shell := if mem (default_shell st) valid_shells then default_shell st else "powershell" |}.

(** The defaults of the data class, with no key in the environment. *)
Definition defaults : Settings :=
  {| ai_provider := "gemini";
     openai_api_key := None;
     gemini_api_key := None;
     ai_model := "gemini-pro";
     openai_model := "gpt-3.5-turbo";
     default_shell := "powershell" |}.

(** The truth value of an optional key: set and not empty. *)
Definition key_set (k : option string) : bool :=
  match k with
  | Some s => PyStr.truthy s
  | None => false
  end.

End Settings.

(** ** Prompts ([ai/prompts.py]) *)

Module Prompts.

Import PyStr.

Definition SYSTEM_PROMPT : string := qq
"You are an expert system administrator and developer assistant that converts natural language descriptions into precise PowerShell and Python commands.

Your role is to:
1. Analyze the user's natural language request
2. Generate the most appropriate and safe command
3. Provide context and warnings when necessary
4. Always respond in JSON format

Response format:
{
    `command`: `the actual command to execute`,
    `description`: `brief explanation of what the command does`,
    `shell`: `powershell` or `python`,
    `warning`: `optional warning for potentially dangerous commands`
}

Guidelines:
- Prioritize PowerShell commands for Windows system administration
- Use Python commands for development, data analysis, or cross-platform tasks
- Always provide safe, tested commands
- Include warnings for potentially destructive operations
- Be specific and avoid overly broad commands
- Use modern PowerShell syntax and best practices
- For Python, prefer standard library or common packages

Safety rules:
- Never suggest commands that could damage the system
- Always warn about destructive operations
- Prefer read-only commands when possible
- Include safety flags in potentially dangerous commands

Examples of good responses:
- For `list running services`: Get-Service | Where-Object {$_.Status -eq `Running`}
- For `check disk space`: Get-WmiObject -Class Win32_LogicalDisk | Select-Object DeviceID,Size,FreeSpace
- For `install python package`: pip install package_name
- For `remote group policy update`: gpupdate /force /target:computer

Remember: The user will review the command before execution, so be precise and helpful.".

Definition nl : string := String "010" EmptyString.

Definition get_user_prompt (user_request default_shell : string) : string :=
  "User request: " ++ qq "`" ++ user_request ++ qq "`" ++ nl ++
  "Default shell environment: " ++ default_shell ++ nl ++
  "Operating system: Windows" ++ nl ++
  nl ++
  "Please provide the most appropriate command for this request. Consider:" ++ nl ++
  "1. The user's intent and context" ++ nl ++
  "2. Best practices for the target environment" ++ nl ++
  "3. Safety and error handling" ++ nl ++
  "4. Modern syntax and tools" ++ nl ++
  nl ++
  "Respond only with the JSON format specified in the system prompt.".

End Prompts.

(** ** The suggestion engine ([ai/command_ai.py]) *)

Module CommandAI.

Import PyStr Json Settings Prompts.

(** A suggestion: the dictionary with the keys [command], [description],
    [shell] and [warning].  On the structured path the last three hold
    whatever JSON value the backend sent, so they are JSON values here. *)
Record Suggestion : Type := {
  command : string;
  description : json;
  shell : json;
  warning : json
}.

Definition set_warning (r : Suggestion) (w : json) : Suggestion :=
  {| command := command r; description := description r; shell := shell r; warning := w |}.

(** What stands behind the two client objects: the text of the reply, or the
    exception the call (or the access to the text of its response) raised. *)
Record Backend : Type := {
  GEMINI_AVAILABLE : bool;
  (** [chat.completions.create]: model, system prompt, user prompt. *)
  chat_completions_create : string -> string -> string -> result string;
  (** [GenerativeModel(model_name).generate_content]: model name, prompt. *)
  generate_content : string -> string -> result string
}.

Record CommandAI : Type := {
  settings : Settings;
  (** Whether [openai_client] was set. *)
  openai_client : bool;
  (** The name of the model of [gemini_model], when it was set. *)
  gemini_model : option string
}.

Definition __init__ (be : Backend) (st : Settings) : CommandAI :=
  if String.eqb (ai_provider st) "openai" && key_set (openai_api_key st) then
    {| settings := st; openai_client := true; gemini_model := None |}
  else if String.eqb (ai_provider st) "gemini" && key_set (gemini_api_key st)
          && GEMINI_AVAILABLE be then
    let model_name :=
      if startswith (ai_model st) "gemini" then ai_model st else "gemini-pro" in
    {| settings := st; openai_client := false; gemini_model := Some model_name |}
  else
    {| settings := st; openai_client := false; gemini_model := None |}.

Definition dangerous_commands : list string :=
  ["rm -rf /"; "del /f /s /q"; "format"; "fdisk"].

Definition destructive_notice : string :=
  "⚠️ This command could be destructive. Please review carefully!".

(** [_validate_suggestion] *)
Definition _validate_suggestion (st : Settings) (suggestion : json)
  : result (option Suggestion) :=
  match suggestion with
  | JObj d =>
      match dict_get "command" d with
      | None => Ok None
      | Some (JStr c) =>
          let result0 :=
            {| command := strip c;
               description := dict_get_default "description" (JStr "") d;
               shell := dict_get_default "shell" (JStr (default_shell st)) d;
               warning := dict_get_default "warning" (JStr "") d |} in
          let command_lower := lower (command result0) in
          let result1 :=
            fold_left
              (fun res dangerous =>
                 if contains dangerous command_lower
                 then set_warning res (JStr destructive_notice)
                 else res)
              dangerous_commands result0 in
          Ok (if truthy (command result1) then Some result1 else None)
      | Some _ => Raise AttributeError
      end
  | _ => Ok None
  end.

(** [xs[1]] *)
Definition index1 (xs : list string) : result string :=
  match xs with
  | _ :: x :: _ => Ok x
  | _ => Raise IndexError
  end.

(** The body of the loop of [_parse_text_response] on one line. *)
Definition text_step (acc : string * string) (raw : string)
  : result (string * string) :=
  let '(command, description) := acc in
  let line := strip raw in
  if startswith line "Command:" || startswith line "command:" then
    bind (index1 (split1 ":" line)) (fun v => Ok (strip v, description))
  else if startswith line "Description:" || startswith line "description:" then
    bind (index1 (split1 ":" line)) (fun v => Ok (command, strip v))
  else if negb (truthy command) && truthy line && negb (startswith line "#") then
    Ok (line, description)
  else Ok (command, description).

Fixpoint text_loop (lines : list string) (acc : string * string)
  : result (string * string) :=
  match lines with
  | [] => Ok acc
  | raw :: rest => bind (text_step acc raw) (text_loop rest)
  end.

(** [_parse_text_response] *)
Definition _parse_text_response (st : Settings) (content : string)
  : result (option Suggestion) :=
  bind (text_loop (split "010" content) (EmptyString, EmptyString))
    (fun '(command, description) =>
       Ok (if truthy command
           then Some {| command := command;
                        description := JStr description;
                        shell := JStr (default_shell st);
                        warning := JStr "" |}
           else None)).

(** [_parse_ai_response] *)
Definition _parse_ai_response (st : Settings) (content : string)
  : result (option Suggestion) :=
  match json_loads content with
  | Some v => _validate_suggestion st v
  | None => _parse_text_response st content
  end.

(** The values of the dictionary [suggestions]: a command, a description and
    a shell. *)
Record Template : Type := {
  t_command : string;
  t_description : string;
  t_shell : string
}.

(** One entry of [suggestions]: the tuple of trigger phrases and the value. *)
Definition PatternRule : Type := (list string * Template)%type.

Definition suggestions : list PatternRule :=
[
  (["group policy"; "gpo"; "policy update"],
   {| t_command := "gpupdate /force";
      t_description := "Force Group Policy update on local machine";
      t_shell := "powershell" |});
  (["remote group policy"; "remote gpo"],
   {| t_command := qq "Invoke-GPUpdate -Computer `ComputerName` -Force";
      t_description := "Force Group Policy update on remote computer";
      t_shell := "powershell" |});
  (["running services"; "active services"; "list services"],
   {| t_command := qq "Get-Service | Where-Object {$_.Status -eq `Running`} | Sort-Object Name";
      t_description := "List all running services sorted by name";
      t_shell := "powershell" |});
  (["stopped services"; "inactive services"],
   {| t_command := qq "Get-Service | Where-Object {$_.Status -eq `Stopped`} | Sort-Object Name";
      t_description := "List all stopped services";
      t_shell := "powershell" |});
  (["start service"; "enable service"],
   {| t_command := qq "Start-Service -Name `ServiceName`";
      t_description := "Start a specific service (replace ServiceName)";
      t_shell := "powershell" |});
  (["stop service"; "disable service"],
   {| t_command := qq "Stop-Service -Name `ServiceName`";
      t_description := "Stop a specific service (replace ServiceName)";
      t_shell := "powershell" |});
  (["disk space"; "storage"; "free space"; "drive space"],
   {| t_command := qq "Get-WmiObject -Class Win32_LogicalDisk | Select-Object DeviceID,@{Name=`Size(GB)`;Expression={[math]::Round($_.Size/1GB,2)}},@{Name=`FreeSpace(GB)`;Expression={[math]::Round($_.FreeSpace/1GB,2)}},@{Name=`PercentFree`;Expression={[math]::Round(($_.FreeSpace/$_.Size)*100,2)}}";
      t_description := "Show disk space with sizes in GB and percentage free";
      t_shell := "powershell" |});
  (["c drive"; "c: drive"; "system drive"],
   {| t_command := qq "Get-WmiObject -Class Win32_LogicalDisk -Filter `DeviceID='C:'` | Select-Object Size,FreeSpace";
      t_description := "Check C: drive space specifically";
      t_shell := "powershell" |});
  (["running processes"; "process list"; "task list"],
   {| t_command := "Get-Process | Sort-Object CPU -Descending | Select-Object -First 20 Name,CPU,WorkingSet,Id";
      t_description := "List top 20 processes by CPU usage";
      t_shell := "powershell" |});
  (["kill process"; "stop process"; "end process"],
   {| t_command := qq "Stop-Process -Name `ProcessName` -Force";
      t_description := "Kill a process by name (replace ProcessName)";
      t_shell := "powershell" |});
  (["network"; "ip config"; "network adapter"; "network interface"],
   {| t_command := qq "Get-NetAdapter | Where-Object {$_.Status -eq `Up`} | Select-Object Name,InterfaceDescription,LinkSpeed";
      t_description := "List active network adapters";
      t_shell := "powershell" |});
  (["ip address"; "ip info"],
   {| t_command := qq "Get-NetIPAddress | Where-Object {$_.AddressFamily -eq `IPv4` -and $_.IPAddress -ne `127.0.0.1`}";
      t_description := "Show IPv4 addresses (excluding localhost)";
      t_shell := "powershell" |});
  (["ping"; "test connection"],
   {| t_command := qq "Test-NetConnection -ComputerName `hostname` -Port 80";
      t_description := "Test network connectivity (replace hostname)";
      t_shell := "powershell" |});
  (["system info"; "computer info"; "system details"],
   {| t_command := "Get-ComputerInfo | Select-Object WindowsProductName,WindowsVersion,TotalPhysicalMemory,CsProcessors";
      t_description := "Display basic system information";
      t_shell := "powershell" |});
  (["uptime"; "system uptime"],
   {| t_command := "(Get-Date) - (Get-CimInstance Win32_OperatingSystem).LastBootUpTime";
      t_description := "Show system uptime";
      t_shell := "powershell" |});
  (["event log"; "system events"; "error log"],
   {| t_command := qq "Get-EventLog -LogName System -Newest 20 | Where-Object {$_.EntryType -eq `Error`}";
      t_description := "Show latest 20 system errors";
      t_shell := "powershell" |});
  (["application log"; "app events"],
   {| t_command := "Get-EventLog -LogName Application -Newest 20";
      t_description := "Show latest 20 application events";
      t_shell := "powershell" |});
  (["create directory"; "new folder"; "mkdir"; "make directory"],
   {| t_command := qq "New-Item -ItemType Directory -Name `NewFolder`";
      t_description := "Create a new directory (replace NewFolder with desired name)";
      t_shell := "powershell" |});
  (["list files"; "directory listing"; "ls"; "dir"],
   {| t_command := "Get-ChildItem | Sort-Object Name";
      t_description := "List files and folders in current directory";
      t_shell := "powershell" |});
  (["find files"; "search files"],
   {| t_command := qq "Get-ChildItem -Path . -Recurse -Filter `*.txt` | Select-Object Name,FullName,Length";
      t_description := "Find all .txt files recursively (change *.txt for other types)";
      t_shell := "powershell" |});
  (["copy files"; "copy"],
   {| t_command := qq "Copy-Item -Path `source` -Destination `destination` -Recurse";
      t_description := "Copy files/folders recursively";
      t_shell := "powershell" |});
  (["install package"; "pip install"; "python package"],
   {| t_command := "pip install requests";
      t_description := "Install a Python package (replace requests with package name)";
      t_shell := "python" |});
  (["list packages"; "pip list"; "installed packages"],
   {| t_command := "pip list";
      t_description := "List all installed Python packages";
      t_shell := "python" |});
  (["web scraping"; "scrape web"],
   {| t_command := "pip install requests beautifulsoup4 lxml";
      t_description := "Install popular web scraping packages";
      t_shell := "python" |});
  (["data analysis"; "data science"],
   {| t_command := "pip install pandas numpy matplotlib seaborn";
      t_description := "Install data analysis packages";
      t_shell := "python" |});
  (["windows features"; "optional features"],
   {| t_command := qq "Get-WindowsOptionalFeature -Online | Where-Object {$_.State -eq `Enabled`}";
      t_description := "List enabled Windows optional features";
      t_shell := "powershell" |});
  (["installed programs"; "software list"],
   {| t_command := "Get-WmiObject -Class Win32_Product | Select-Object Name,Version | Sort-Object Name";
      t_description := "List installed programs";
      t_shell := "powershell" |})
].

(** The inner loop of the matcher: the score of one rule. *)
Definition rule_score (user_lower : string) (patterns : list string) : nat :=
  fold_left
    (fun score pattern =>
       if contains pattern user_lower then score + String.length pattern else score)
    patterns 0.

(** The outer loop: the pair [(best_match, best_score)] after the rules. *)
Definition best_loop (user_lower : string) (rules : list PatternRule)
  (acc : option Template * nat) : option Template * nat :=
  fold_left
    (fun '(best_match, best_score) '(patterns, suggestion) =>
       let score := rule_score user_lower patterns in
       if (best_score <? score)%nat then (Some suggestion, score)
       else (best_match, best_score))
    rules acc.

Definition matched (t : Template) : Suggestion :=
  {| command := t_command t;
     description := JStr (t_description t);
     shell := JStr (t_shell t);
     warning := JStr "Enhanced fallback suggestion - AI service not available" |}.

Definition placeholder (user_request : string) : Suggestion :=
  {| command := "# No specific pattern found for: " ++ qq "`" ++ user_request ++ qq "`";
     description := JStr (qq "Try commands like `list services`, `disk space`, `system info`, or `network adapters`");
     shell := JStr "powershell";
     warning := JStr "No matching pattern found - try being more specific" |}.

(** [_get_fallback_suggestion]: every path returns a dictionary. *)
Definition _get_fallback_suggestion (user_request : string) : Suggestion :=
  let user_lower := lower user_request in
  match fst (best_loop user_lower suggestions (None, 0)) with
  | Some best_match => matched best_match
  | None => placeholder user_request
  end.

(** The [try] block of [_suggest_with_openai]. *)
Definition openai_body (be : Backend) (ai : CommandAI) (user_request : string)
  : result (option Suggestion) :=
  let st := settings ai in
  let user_prompt := get_user_prompt user_request (default_shell st) in
  bind (chat_completions_create be (openai_model st) SYSTEM_PROMPT user_prompt)
    (fun content => _parse_ai_response st (strip content)).

(** [_suggest_with_openai]: any exception leads to the fallback matcher. *)
Definition _suggest_with_openai (be : Backend) (ai : CommandAI) (user_request : string)
  : option Suggestion :=
  match openai_body be ai user_request with
  | Ok r => r
  | Raise _ => Some (_get_fallback_suggestion user_request)
  end.

(** The [try] block of [_suggest_with_gemini]. *)
Definition gemini_body (be : Backend) (ai : CommandAI) (model_name user_request : string)
  : result (option Suggestion) :=
  let st := settings ai in
  let full_prompt :=
    SYSTEM_PROMPT ++ nl ++ nl ++ get_user_prompt user_request (default_shell st) in
  bind (generate_content be model_name full_prompt)
    (fun content => _parse_ai_response st (strip content)).

(** [_suggest_with_gemini] *)
Definition _suggest_with_gemini (be : Backend) (ai : CommandAI) (model_name user_request : string)
  : option Suggestion :=
  match gemini_body be ai model_name user_request with
  | Ok r => r
  | Raise _ => Some (_get_fallback_suggestion user_request)
  end.

(** [suggest_command] *)
Definition suggest_command (be : Backend) (ai : CommandAI) (user_request : string)
  : option Suggestion :=
  let st := settings ai in
  if String.eqb (ai_provider st) "fallback" then
    Some (_get_fallback_suggestion user_request)
  else if String.eqb (ai_provider st) "openai" && openai_client ai then
    _suggest_with_openai be ai user_request
  else
    match gemini_model ai with
    | Some model_name =>
        if String.eqb (ai_provider st) "gemini"
        then _suggest_with_gemini be ai model_name user_request
        else Some (_get_fallback_suggestion user_request)
    | None => Some (_get_fallback_suggestion user_request)
    end.

End CommandAI.

(** ** The executors ([shells/powershell_handler.py], [shells/python_handler.py])

    A subordinate process is seen from its parent, with what surrounds it:
    how its start ends, after how many seconds it exits when its pipes are
    read (if ever), the lines it writes to its standard output (each with its
    line end), its error text, its return code; whether its error text is
    more than the pipe holds, so that it stops until that pipe is read;
    whether its output cannot be decoded as text, at its end or when it is
    killed after a timeout (where the platform decodes it then); and which
    texts the console of the parent can print.  The operating system maps an
    argument vector to such a behaviour.  What a handler prints is kept as a
    list of messages, without the colour codes; the messages of exceptions
    are taken to be printable.  The handler of the scripting runtime is
    modelled for output that can be decoded and printed. *)

Module Shells.

Import PyStr.

(** How [Popen] ends: the subordinate runs, the executable is not found
    ([FileNotFoundError]), or the start fails otherwise (another [OSError],
    such as [PermissionError]). *)
Inductive start_outcome : Type :=
| Started
| NotFound
| Refused.

Record Process : Type := {
  start : start_outcome;
  exit_time : option nat;
  stdout_lines : list string;
  stderr_text : string;
  returncode : Z;
  stderr_blocks : bool;
  garbled : bool;
  garbled_when_killed : bool;
  console : string -> bool
}.

Definition launches (p : Process) : bool :=
  match start p with
  | Started => true
  | _ => false
  end.

Definition OS : Type := list string -> Process.

Inductive message : Type :=
| Unavailable                       (* PowerShell is not available on this system. *)
| Announced                         (* Executing in ...: (the command not yet shown) *)
| Executing (command : string)      (* Executing in ...: > command *)
| Output (text : string)            (* a print of the subordinate's output *)
| Failed (code : Z)                 (* Command failed with exit code ... *)
| ErrorText (text : string)         (* the subordinate's error text *)
| Completed                         (* Command completed successfully. *)
| TimedOut                          (* Command timed out. *)
| Fault.                            (* Error executing ... command: ... *)

(** The outcome of [subprocess.run]: it returns, or raises
    [TimeoutExpired], [FileNotFoundError], or an exception that is neither
    of these nor another [SubprocessError]. *)
Inductive run_outcome : Type :=
| Returned (code : Z) (stdout stderr : string)
| TimeoutExpired
| FileNotFoundError
| OtherException.

Definition exited (p : Process) (now : nat) : bool :=
  match exit_time p with
  | Some t => (t <=? now)%nat
  | None => false
  end.

(** [subprocess.run(args, capture_output=True, text=True, timeout=t)]: the
    parent reads both pipes and waits for at most [t] seconds; the output is
    decoded when the subordinate has exited, and on some platforms also when
    it is killed after the timeout. *)
Definition subprocess_run (p : Process) (timeout : nat) : run_outcome :=
  match start p with
  | NotFound => FileNotFoundError
  | Refused => OtherException
  | Started =>
      if exited p timeout then
        if garbled p then OtherException
        else Returned (returncode p) (String.concat EmptyString (stdout_lines p))
               (stderr_text p)
      else if garbled_when_killed p then OtherException
      else TimeoutExpired
  end.

Record PowerShellHandler : Type := {
  is_available : bool;
  ps_command : string
}.

(** The candidates of [_check_powershell_availability], each tried with a
    no-op command under a timeout of ten seconds.  A candidate that returns
    another code than 0, is not found or runs into the timeout gives way to
    the next one; any other exception ends the probe through the outer
    handler. *)
Fixpoint probe (os : OS) (candidates : list string) : option string :=
  match candidates with
  | [] => None
  | cmd :: rest =>
      match subprocess_run (os [cmd; "-Command"; qq "Write-Host `test`"]) 10 with
      | Returned code _ _ => if Z.eqb code 0 then Some cmd else probe os rest
      | TimeoutExpired => probe os rest
      | FileNotFoundError => probe os rest
      | OtherException => None
      end
  end.

(** [PowerShellHandler.__init__] *)
Definition powershell_handler (os : OS) : PowerShellHandler :=
  match probe os ["powershell"; "pwsh"] with
  | Some cmd => {| is_available := true; ps_command := cmd |}
  | None => {| is_available := false; ps_command := EmptyString |}
  end.

(** What both handlers print once the subordinate has exited. *)
Definition report_exit (code : Z) (stderr : string) : list message :=
  if Z.eqb code 0 then [Completed]
  else Failed code :: (if truthy stderr then [ErrorText (strip stderr)] else []).

(** [PowerShellHandler.execute]: a print the console cannot do raises, and
    the handler of [Exception] prints the error instead of what was left to
    print. *)
Definition execute (os : OS) (h : PowerShellHandler) (command : string) : list message :=
  if negb (is_available h) then [Unavailable]
  else
    let p := os [ps_command h; "-Command"; command] in
    if negb (console p command) then [Announced; Fault]
    else
      Executing command ::
      match subprocess_run p 30 with
      | Returned code stdout stderr =>
          if truthy stdout && negb (console p (strip stdout)) then [Fault]
          else
            ((if truthy stdout then [Output (strip stdout)] else []) ++
             (if Z.eqb code 0 then [Completed]
              else Failed code ::
                   (if truthy stderr
                    then (if console p (strip stderr) then [ErrorText (strip stderr)]
                          else [Fault])
                    else [])))%list
      | TimeoutExpired => [TimedOut]
      | FileNotFoundError => [Fault]
      | OtherException => [Fault]
      end.

(** The loop [while True: output = process.stdout.readline() ...] of
    [_execute_single_command].  [pending] holds the lines not yet read and
    [now] the seconds passed.  A line that is there is read and printed.
    With no line left, [readline] waits for the end of the stream, which
    comes when the subordinate exits; the pipe of the error text is not read
    meanwhile, so that a subordinate stopped on it does not exit.  Each turn
    of waiting takes one unit of [fuel] and one second.  [None]: the loop
    has not ended within [fuel]. *)
Fixpoint stream_loop (fuel : nat) (p : Process) (now : nat) (pending : list string)
  (printed : list message) : option (list message) :=
  match fuel with
  | O => None
  | S f =>
      match pending with
      | output :: rest =>
          stream_loop f p now rest
            (if truthy output then (printed ++ [Output (strip output)])%list else printed)
      | [] =>
          if negb (stderr_blocks p) && exited p now then Some printed
          else stream_loop f p (S now) [] printed
      end
  end.

(** [PythonHandler._execute_single_command]: [Popen] with no timeout, the
    streaming loop, [communicate()] and the report. *)
Definition _execute_single_command (fuel : nat) (os : OS) (python_executable command : string)
  : option (list message) :=
  let p := os [python_executable; "-c"; command] in
  if negb (launches p) then Some [Fault]
  else
    match stream_loop fuel p 0 (stdout_lines p) [] with
    | None => None
    | Some printed => Some (printed ++ report_exit (returncode p) (stderr_text p))%list
    end.

(** A subordinate that starts, writes nothing and never exits, such as the
    statement [while True: pass]. *)
Definition hanging : Process :=
  {| start := Started; exit_time := None; stdout_lines := [];
     stderr_text := EmptyString; returncode := 0%Z;
     stderr_blocks := false; garbled := false; garbled_when_killed := false;
     console := fun _ => true |}.

(** A subordinate that prints one line and exits with code 0 after a second. *)
Definition prints_once (line : string) : Process :=
  {| start := Started; exit_time := Some 1;
     stdout_lines := [line ++ String "010" EmptyString];
     stderr_text := EmptyString; returncode := 0%Z;
     stderr_blocks := false; garbled := false; garbled_when_killed := false;
     console := fun _ => true |}.





End Shells.

(** ** The specification's side

    Definitions that follow the words of the written specification, to be
    compared with the functions above. *)

Module Spec.

Import PyStr Json Settings CommandAI.

(** A trigger phrase counts for its length when it occurs in the request and
    for nothing otherwise; a rule scores the sum over its phrases. *)
Definition phrase_score (request : string) (phrase : string) : nat :=
  if contains phrase request then String.length phrase else 0.

Definition score (request : string) (rule : PatternRule) : nat :=
  list_sum (map (phrase_score request) (fst rule)).

(** The deny-list test: some fragment occurs in the text. *)
Definition destructive (text : string) : bool :=
  existsb (fun fragment => contains fragment text) dangerous_commands.

(** A fragment that neither starts nor ends with white space. *)
Definition trim_safe (d : string) : bool :=
  match d with
  | EmptyString => false
  | String c _ => negb (is_space c) && String.eqb (rstrip d) d
  end.

(** The data-model invariant of a suggestion record. *)
Definition shell_in_enum (v : json) : Prop :=
  v = JStr "powershell" \/ v = JStr "python".

Definition record_invariant (r : Suggestion) : Prop :=
  strip (command r) <> EmptyString /\ shell_in_enum (shell r).

(** Two readings of "a line beginning with the label": the label in any
    letter casing, and the label as the source spells it (all lower case, or
    with a capital first letter).  Both give what follows the label. *)
Fixpoint drop (n : nat) (s : string) : string :=
  match n, s with
  | O, _ => s
  | S _, EmptyString => EmptyString
  | S m, String _ r => drop m r
  end.

Definition any_casing (label line : string) : option string :=
  if startswith (lower line) label then Some (drop (String.length label) line) else None.

Definition capital (label : string) : string :=
  match label with
  | EmptyString => EmptyString
  | String c r =>
      let n := nat_of_ascii c in
      String (if ((97 <=? n) && (n <=? 122))%nat then ascii_of_nat (n - 32) else c) r
  end.

Definition as_spelled (label line : string) : option string :=
  if startswith line (capital label) || startswith line label
  then Some (drop (String.length label) line)
  else None.

(** The line-oriented extraction: the labelled lines fill their fields, the
    first line that is neither empty nor a comment is taken as the command
    while no command is set. *)
Definition extract_step (label_of : string -> string -> option string)
  (acc : string * string) (raw : string) : string * string :=
  let line := strip raw in
  match label_of "command:" line with
  | Some v => (strip v, snd acc)
  | None =>
      match label_of "description:" line with
      | Some v => (fst acc, strip v)
      | None =>
          if String.eqb (fst acc) EmptyString
             && negb (String.eqb line EmptyString)
             && negb (startswith line "#")
          then (line, snd acc)
          else acc
      end
  end.

Definition extract (label_of : string -> string -> option string)
  (st : Settings) (content : string) : option Suggestion :=
  let found := fold_left (extract_step label_of) (split "010" content)
                 (EmptyString, EmptyString) in
  if String.eqb (fst found) EmptyString then None
  else Some {| command := fst found;
               description := JStr (snd found);
               shell := JStr (default_shell st);
               warning := JStr EmptyString |}.

(** Modelled from the spec: the encoder of a suggestion record to the
    canonical JSON schema; the sources decode suggestions and never encode
    one.  The record has the four string fields of the data model. *)
Record SuggestionRecord : Type := {
  r_command : string;
  r_description : string;
  r_shell : string;
  r_warning : string
}.

Definition hex_digit (n : N) : ascii :=
  if (n <? 10)%N then ascii_of_N (48 + n) else ascii_of_N (87 + n).

Definition escape_char (c : ascii) : string :=
  if Ascii.eqb c dquote then String "\" (String dquote EmptyString)
  else if Ascii.eqb c "\" then "\\"
  else if (N_of_ascii c <? 32)%N then
    "\u00" ++ String (hex_digit (N_of_ascii c / 16)) (String (hex_digit (N_of_ascii c mod 16)) EmptyString)
  else String c EmptyString.

Fixpoint escape (s : string) : string :=
  match s with
  | EmptyString => EmptyString
  | String c r => escape_char c ++ escape r
  end.

Definition encode_string (s : string) : string :=
  String dquote (escape s ++ String dquote EmptyString).

Definition member (key value : string) : string :=
  encode_string key ++ ": " ++ encode_string value.

Definition encode (r : SuggestionRecord) : string :=
  "{" ++ member "command" (r_command r) ++ ", "
      ++ member "description" (r_description r) ++ ", "
      ++ member "shell" (r_shell r) ++ ", "
      ++ member "warning" (r_warning r) ++ "}".

(** The record as the dictionary the engine hands to its caller. *)
Definition as_suggestion (r : SuggestionRecord) : Suggestion :=
  {| command := r_command r;
     description := JStr (r_description r);
     shell := JStr (r_shell r);
     warning := JStr (r_warning r) |}.

(** The gateway's view of a request: which backend is asked, if any, and
    what it replies. *)
Definition backend_reply (be : Backend) (ai : CommandAI) (user_request : string)
  : option (result string) :=
  let st := settings ai in
  let user_prompt := Prompts.get_user_prompt user_request (default_shell st) in
  if String.eqb (ai_provider st) "fallback" then None
  else if String.eqb (ai_provider st) "openai" && openai_client ai then
    Some (chat_completions_create be (openai_model st) Prompts.SYSTEM_PROMPT user_prompt)
  else
    match gemini_model ai with
    | Some model_name =>
        if String.eqb (ai_provider st) "gemini"
        then Some (generate_content be model_name
                     (Prompts.SYSTEM_PROMPT ++ Prompts.nl ++ Prompts.nl ++ user_prompt))
        else None
    | None => None
    end.

(** A backend that answers every request with the same text, and settings
    that select the first backend with a key. *)
Definition replying (text : string) : Backend :=
  {| GEMINI_AVAILABLE := true;
     chat_completions_create := fun _ _ _ => Ok text;
     generate_content := fun _ _ => Ok text |}.

Definition openai_settings : Settings :=
  {| ai_provider := "openai";
     openai_api_key := Some "sk-test";
     gemini_api_key := None;
     ai_model := "gpt-3.5-turbo";
     openai_model := "gpt-3.5-turbo";
     default_shell := "powershell" |}.

End Spec.

(** ** The start of the application ([Settings.__post_init__])

    The environment is a map from the names of variables to their values;
    the four switches of the data class are kept beside the settings the
    engine reads. *)

Module Startup.

Import PyStr Settings.

Definition Env : Type := string -> option string.

(** [os.getenv(name, default)] with a string for default. *)
Definition getenv (env : Env) (name default : string) : string :=
  match env name with
  | Some v => v
  | None => default
  end.

(** [os.getenv(name, default)] with a default that may be [None]. *)
Definition getenv_opt (env : Env) (name : string) (default : option string) : option string :=
  match env name with
  | Some v => Some v
  | None => default
  end.

Record Switches : Type := {
  require_confirmation : bool;
  enable_dangerous_commands : bool;
  use_colors : bool;
  verbose_output : bool
}.

(** [os.getenv(name, default).lower() == 'true'] *)
Definition flag (env : Env) (name default : string) : bool :=
  String.eqb (lower (getenv env name default)) "true".

(** [Settings.__post_init__]: the fields are read from the environment, with
    the values of the instance as defaults, and then validated. *)
Definition __post_init__ (env : Env) (self : Settings) : Settings * Switches :=
  let provider := lower (getenv env "AI_PROVIDER" (ai_provider self)) in
  let by_provider :=
    if String.eqb provider "gemini" then "gemini-pro"
    else if String.eqb provider "openai" then "gpt-3.5-turbo"
    else ai_model self in
  let model :=
    match env "AI_MODEL" with
    | Some m => if truthy m then m else by_provider
    | None => by_provider
    end in
  (_validate
     {| ai_provider := provider;
        openai_api_key := getenv_opt env "OPENAI_API_KEY" (openai_api_key self);
        gemini_api_key := getenv_opt env "GEMINI_API_KEY" (gemini_api_key self);
        ai_model := model;
        openai_model := getenv env "OPENAI_MODEL" (openai_model self);
        default_shell := lower (getenv env "DEFAULT_SHELL" (default_shell self)) |},
   {| require_confirmation := flag env "REQUIRE_CONFIRMATION" "true";
      enable_dangerous_commands := flag env "ENABLE_DANGEROUS_COMMANDS" "false";
      use_colors := flag env "USE_COLORS" "true";
      verbose_output := flag env "VERBOSE_OUTPUT" "false" |}).

(** An environment given by a list of bindings, the first for a name
    counting. *)
Fixpoint env_of (bindings : list (string * string)) : Env :=
  fun name =>
    match bindings with
    | [] => None
    | (k, v) :: rest => if String.eqb name k then Some v else env_of rest name
    end.

End Startup.

(** ** The scripting-runtime handler on scripts ([PythonHandler.execute],
    [PythonHandler._execute_script])

    The files are a list of paths with their contents.  The operating system
    decides, from the files, what a subordinate does, how the creation of the
    temporary file ends and whether a file can be removed. *)

Module PythonHandler.

Import PyStr Shells.

Definition Files : Type := list (string * string).

(** [NamedTemporaryFile(mode='w', suffix='.py', delete=False)] and the write
    of the script into it: the creation fails, the write fails and leaves
    the file with some part of the text, or the file holds the script. *)
Inductive temp_outcome : Type :=
| CreateFails
| WriteFails (path partial : string)
| Written (path : string).

Record World : Type := {
  run : Files -> OS;
  make_temp : Files -> string -> temp_outcome;
  can_unlink : Files -> string -> bool
}.

Fixpoint remove_file (path : string) (fs : Files) : Files :=
  match fs with
  | [] => []
  | (p, c) :: rest =>
      if String.eqb p path then remove_file path rest else (p, c) :: remove_file path rest
  end.

(** [try: os.unlink(path) except OSError: pass] *)
Definition unlink_quietly (w : World) (path : string) (fs : Files) : Files :=
  if can_unlink w fs path then remove_file path fs else fs.

(** [PythonHandler._execute_script]: what is printed and the files left, or
    [None] while the loop has not ended. *)
Definition _execute_script (fuel : nat) (w : World) (fs : Files)
  (python_executable script : string) : option (list message * Files) :=
  match make_temp w fs script with
  | CreateFails => Some ([Fault], fs)
  | WriteFails path partial => Some ([Fault], (path, partial) :: fs)
  | Written path =>
      let fs1 := (path, script) :: fs in
      let p := run w fs1 [python_executable; path] in
      if negb (launches p) then Some ([Fault], unlink_quietly w path fs1)
      else
        match stream_loop fuel p 0 (stdout_lines p) [] with
        | None => None
        | Some printed =>
            Some ((printed ++ report_exit (returncode p) (stderr_text p))%list,
                  unlink_quietly w path fs1)
        end
  end.

(** The test of [execute]: a line end, a leading [import ] or a [def ]. *)
Definition is_script (command : string) : bool :=
  contains (String "010" EmptyString) command
  || startswith (strip command) "import "
  || contains "def " command.

(** [PythonHandler.execute] *)
Definition execute (fuel : nat) (w : World) (fs : Files)
  (python_executable command : string) : option (list message * Files) :=
  if is_script command then
    match _execute_script fuel w fs python_executable command with
    | Some (printed, fs') => Some (Executing command :: printed, fs')
    | None => None
    end
  else
    match _execute_single_command fuel (run w fs) python_executable command with
    | Some printed => Some (Executing command :: printed, fs)
    | None => None
    end.


End PythonHandler.

(** ** The confirmation dialogue ([QuickCommand.process_command]) *)

Module Interactive.

Import PyStr CommandAI.

(** What [input] gives: a line, or the end of the input or an interrupt. *)
Inductive keyboard : Type :=
| Typed (line : string)
| Interrupted.

(** What the dialogue ends with: the command to run, the command put on the
    clip board, or nothing. *)
Inductive decision : Type :=
| Run (command : string)
| Copy (command : string)
| Nothing.

(** The loop [while True: choice = input(...).strip().lower() ...]; an
    exhausted input is the end of the input. *)
Fixpoint confirm (inputs : list keyboard) (command : string) : decision :=
  match inputs with
  | [] => Nothing
  | Interrupted :: _ => Nothing
  | Typed line :: rest =>
      let choice := lower (strip line) in
      if String.eqb choice "y" || String.eqb choice "yes" then Run command
      else if String.eqb choice "n" || String.eqb choice "no" then Nothing
      else if String.eqb choice "copy" then Copy command
      else confirm rest command
  end.

Definition dialogue (suggestion : option Suggestion) (inputs : list keyboard) : decision :=
  match suggestion with
  | None => Nothing
  | Some r => confirm inputs (command r)
  end.

(** [process_command]: the command to execute, if any. *)
Definition process_command (be : Backend) (ai : CommandAI) (user_input : string)
  (inputs : list keyboard) : option string :=
  match dialogue (suggest_command be ai user_input) inputs with
  | Run command => Some command
  | _ => None
  end.

(** What [process_command] puts on the clip board, when [pyperclip] can be
    imported. *)
Definition copied (pyperclip : bool) (be : Backend) (ai : CommandAI) (user_input : string)
  (inputs : list keyboard) : option string :=
  match dialogue (suggest_command be ai user_input) inputs with
  | Copy command => if pyperclip then Some command else None
  | _ => None
  end.

Definition says_yes (line : string) : bool :=
  String.eqb (lower (strip line)) "y" || String.eqb (lower (strip line)) "yes".

Definition says_other (line : string) : bool :=
  negb (existsb (String.eqb (lower (strip line))) ["y"; "yes"; "n"; "no"; "copy"]).

End Interactive.

(** ** More of the specification's side *)

Module Views.

Import PyStr Json CommandAI Shells.

(** A suggestion as the dictionary it is in the source. *)
Definition as_dict (r : Suggestion) : dict :=
  [("command", JStr (command r)); ("description", description r);
   ("shell", shell r); ("warning", warning r)].




(** A line the extraction never takes for a command: blank, a comment, or a
    description. *)
Definition idle_line (raw : string) : bool :=
  String.eqb (strip raw) EmptyString
  || startswith (strip raw) "#"
  || startswith (strip raw) "Description:"
  || startswith (strip raw) "description:".

End Views.

Import PyStr Json Settings Prompts CommandAI Shells Spec.
Open Scope nat_scope.
Open Scope list_scope.

(** * Properties *)

(** ** Strings *)

Section Strings.

Lemma is_space_lower_char (c : ascii) : is_space (lower_char c) = is_space c.
Proof. destruct c as [[] [] [] [] [] [] [] []]; reflexivity. Qed.

Lemma lower_lstrip (s : string) : lower (lstrip s) = lstrip (lower s).
Proof.
  induction s as [|c r IH]; simpl; [reflexivity|].
  rewrite is_space_lower_char. destruct (is_space c); [exact IH | reflexivity].
Qed.

Lemma lower_rstrip (s : string) : lower (rstrip s) = rstrip (lower s).
Proof.
  induction s as [|c r IH]; simpl; [reflexivity|].
  rewrite <- IH. destruct (rstrip r); simpl.
  - rewrite is_space_lower_char. destruct (is_space c); reflexivity.
  - reflexivity.
Qed.

Lemma lower_strip (s : string) : lower (strip s) = strip (lower s).
Proof. unfold strip. now rewrite lower_rstrip, lower_lstrip. Qed.

Lemma lstrip_head (s : string) (c : ascii) (r : string) :
  lstrip s = String c r -> is_space c = false.
Proof.
  induction s as [|a t IH]; simpl; [discriminate|].
  destruct (is_space a) eqn:E; [exact IH|].
  intros H; injection H as <- _. exact E.
Qed.

Lemma rstrip_head (s : string) (c : ascii) (r : string) :
  is_space c = false -> exists r', rstrip (String c r) = String c r'.
Proof.
  intros E. simpl. destruct (rstrip r); [rewrite E|]; eauto.
Qed.

Lemma rstrip_idem (s : string) : rstrip (rstrip s) = rstrip s.
Proof.
  induction s as [|c r IH]; simpl; [reflexivity|].
  destruct (rstrip r) as [|a b] eqn:E.
  - destruct (is_space c) eqn:Ec; simpl; [reflexivity | now rewrite Ec].
  - change (rstrip (String c (String a b))) with
      (match rstrip (String a b) with
       | EmptyString => if is_space c then EmptyString else String c EmptyString
       | String x y => String c (String x y)
       end).
    now rewrite IH.
Qed.

Lemma lstrip_nonspace_head (c : ascii) (r : string) :
  is_space c = false -> lstrip (String c r) = String c r.
Proof. intros E. simpl. now rewrite E. Qed.

Lemma strip_idem (s : string) : strip (strip s) = strip s.
Proof.
  unfold strip. destruct (lstrip s) as [|c r] eqn:E; [reflexivity|].
  pose proof (lstrip_head _ _ _ E) as Hc.
  destruct (rstrip_head (String c r) c r Hc) as [r' Hr].
  rewrite Hr. rewrite (lstrip_nonspace_head c r' Hc). rewrite <- Hr. apply rstrip_idem.
Qed.

Lemma strip_nonempty_head (c : ascii) (r : string) :
  is_space c = false -> strip (String c r) <> EmptyString.
Proof.
  intros E. unfold strip. rewrite (lstrip_nonspace_head _ _ E).
  destruct (rstrip_head r c r E) as [r' Hr].
  rewrite Hr. discriminate.
Qed.

Lemma truthy_false (s : string) : truthy s = false <-> s = EmptyString.
Proof. destruct s; simpl; split; congruence. Qed.

Lemma truthy_true (s : string) : truthy s = true <-> s <> EmptyString.
Proof. destruct s; simpl; split; congruence. Qed.

Lemma startswith_split (p s : string) :
  startswith s p = true -> s = (p ++ drop (String.length p) s)%string.
Proof.
  revert s. induction p as [|a p IH]; intros s H; [reflexivity|].
  destruct s as [|b s]; simpl in H; [discriminate|].
  apply andb_prop in H as [H1 H2]. apply Ascii.eqb_eq in H1 as ->.
  simpl. f_equal. now apply IH.
Qed.

Lemma startswith_empty (d : string) : d <> EmptyString -> startswith EmptyString d = false.
Proof. destruct d; [congruence | reflexivity]. Qed.

(** A fragment that neither starts nor ends with white space occurs in a
    text exactly when it occurs in the trimmed text. *)
Lemma rstrip_cons (c : ascii) (r : string) :
  rstrip (String c r) =
  match rstrip r with
  | EmptyString => if is_space c then EmptyString else String c EmptyString
  | String x y => String c (String x y)
  end.
Proof. reflexivity. Qed.

Lemma rstrip_fixed_tail (c0 c1 : ascii) (d : string) :
  rstrip (String c0 (String c1 d)) = String c0 (String c1 d) ->
  rstrip (String c1 d) = String c1 d.
Proof.
  rewrite (rstrip_cons c0). destruct (rstrip (String c1 d)).
  - destruct (is_space c0); discriminate.
  - congruence.
Qed.

Lemma startswith_rstrip (d s : string) :
  d <> EmptyString -> rstrip d = d -> startswith (rstrip s) d = startswith s d.
Proof.
  revert d. induction s as [|c r IH]; intros d Hne Hd; [reflexivity|].
  destruct d as [|c0 d']; [congruence|].
  rewrite rstrip_cons.
  destruct d' as [|c1 d''].
  - simpl in Hd. destruct (is_space c0) eqn:E0; [discriminate|].
    destruct (rstrip r); simpl.
    + destruct (is_space c) eqn:Ec; simpl; [|reflexivity].
      destruct (Ascii.eqb c0 c) eqn:Ecc; [|reflexivity].
      apply Ascii.eqb_eq in Ecc. congruence.
    + reflexivity.
  - pose proof (rstrip_fixed_tail _ _ _ Hd) as Hd'.
    specialize (IH (String c1 d'') ltac:(discriminate) Hd').
    change (startswith (String c r) (String c0 (String c1 d''))) with
      (Ascii.eqb c0 c && startswith r (String c1 d'')).
    rewrite <- IH.
    destruct (rstrip r) as [|x y].
    + destruct (is_space c); simpl; now rewrite ?andb_false_r.
    + reflexivity.
Qed.

Lemma contains_empty (d : string) : d <> EmptyString -> contains d EmptyString = false.
Proof. destruct d; [congruence | reflexivity]. Qed.

Lemma contains_cons (d : string) (c : ascii) (r : string) :
  contains d (String c r) = if startswith (String c r) d then true else contains d r.
Proof. reflexivity. Qed.

Lemma contains_rstrip (d s : string) :
  d <> EmptyString -> rstrip d = d -> contains d (rstrip s) = contains d s.
Proof.
  intros Hne Hd. induction s as [|c r IH]; [reflexivity|].
  rewrite contains_cons, <- (startswith_rstrip d (String c r) Hne Hd), <- IH.
  rewrite rstrip_cons. destruct (rstrip r) as [|x y].
  - destruct (is_space c).
    + now rewrite contains_empty, startswith_empty.
    + rewrite contains_cons, contains_empty by assumption. reflexivity.
  - now rewrite contains_cons.
Qed.

Lemma contains_lstrip (d' s : string) (c0 : ascii) :
  is_space c0 = false -> contains (String c0 d') (lstrip s) = contains (String c0 d') s.
Proof.
  intros E0. induction s as [|c r IH]; [reflexivity|].
  simpl lstrip. destruct (is_space c) eqn:Ec; [|reflexivity].
  rewrite IH, contains_cons.
  change (startswith (String c r) (String c0 d')) with (Ascii.eqb c0 c && startswith r d').
  destruct (Ascii.eqb c0 c) eqn:Ecc; [|reflexivity].
  apply Ascii.eqb_eq in Ecc. congruence.
Qed.

Lemma contains_strip (d s : string) :
  trim_safe d = true -> contains d (strip s) = contains d s.
Proof.
  destruct d as [|c0 d']; [discriminate|]. unfold trim_safe.
  intros H. apply andb_prop in H as [H1 H2].
  apply negb_true_iff in H1. apply String.eqb_eq in H2.
  unfold strip. rewrite contains_rstrip by (congruence || assumption).
  now apply contains_lstrip.
Qed.

End Strings.

(** ** The fallback matcher *)

Section Fallback.

Variable request : string.

Lemma rule_score_from (patterns : list string) (n : nat) :
  fold_left
    (fun score pattern =>
       if contains pattern request then score + String.length pattern else score)
    patterns n
  = n + list_sum (map (phrase_score request) patterns).
Proof.
  revert n. induction patterns as [|p ps IH]; intros n; simpl; [lia|].
  rewrite IH. unfold phrase_score. destruct (contains p request); lia.
Qed.

Lemma rule_score_is_score (rule : PatternRule) :
  rule_score request (fst rule) = score request rule.
Proof. unfold rule_score, score. now rewrite rule_score_from. Qed.

Lemma best_loop_cons (rule : PatternRule) (rules : list PatternRule)
  (best_match : option Template) (best_score : nat) :
  best_loop request (rule :: rules) (best_match, best_score) =
  best_loop request rules
    (if best_score <? score request rule
     then (Some (snd rule), score request rule)
     else (best_match, best_score)).
Proof.
  unfold best_loop. simpl. destruct rule as [patterns suggestion].
  now rewrite <- (rule_score_is_score (patterns, suggestion)).
Qed.

(** Rules that do not beat the best score leave the pair as it is. *)
Lemma best_loop_keeps (rules : list PatternRule) (bm : option Template) (bs : nat) :
  (forall r, In r rules -> score request r <= bs) ->
  best_loop request rules (bm, bs) = (bm, bs).
Proof.
  revert bm bs. induction rules as [|r rs IH]; intros bm bs H; [reflexivity|].
  rewrite best_loop_cons.
  assert (E : (bs <? score request r) = false).
  { apply Nat.ltb_ge. apply H. now left. }
  rewrite E. apply IH. intros r' Hr'. apply H. now right.
Qed.

(** Rules that all score below [m] leave the best score below [m]. *)
Lemma best_loop_below (rules : list PatternRule) (bm : option Template) (bs m : nat) :
  (forall r, In r rules -> score request r < m) -> bs < m ->
  snd (best_loop request rules (bm, bs)) < m.
Proof.
  revert bm bs. induction rules as [|r rs IH]; intros bm bs H Hb; [exact Hb|].
  rewrite best_loop_cons.
  destruct (bs <? score request r); apply IH; auto with datatypes.
Qed.

Lemma best_loop_app (pre post : list PatternRule) (acc : option Template * nat) :
  best_loop request (pre ++ post) acc = best_loop request post (best_loop request pre acc).
Proof. unfold best_loop. apply fold_left_app. Qed.

(** The first rule that reaches the highest score is the one kept. *)
Lemma best_loop_first_max (pre post : list PatternRule) (rule : PatternRule)
  (bm : option Template) (bs : nat) :
  (forall r, In r pre -> score request r < score request rule) ->
  (forall r, In r post -> score request r <= score request rule) ->
  bs < score request rule ->
  best_loop request (pre ++ rule :: post) (bm, bs) = (Some (snd rule), score request rule).
Proof.
  intros Hpre Hpost Hb. rewrite best_loop_app.
  pose proof (best_loop_below pre bm bs _ Hpre Hb) as Hlt.
  destruct (best_loop request pre (bm, bs)) as [bm' bs']. simpl in Hlt.
  rewrite best_loop_cons.
  apply Nat.ltb_lt in Hlt. rewrite Hlt.
  now apply best_loop_keeps.
Qed.

(** The match that is kept belongs to a rule of the table. *)
Lemma best_loop_in (rules : list PatternRule) (bm : option Template) (bs : nat) (t : Template) :
  fst (best_loop request rules (bm, bs)) = Some t ->
  bm = Some t \/ exists r, In r rules /\ snd r = t.
Proof.
  revert bm bs. induction rules as [|r rs IH]; intros bm bs H; [now left|].
  rewrite best_loop_cons in H.
  destruct (bs <? score request r); apply IH in H as [H | (r' & Hin & Ht)].
  - right. exists r. split; [now left | congruence].
  - right. exists r'. split; [now right | assumption].
  - now left.
  - right. exists r'. split; [now right | assumption].
Qed.

(** When no rule scores, nothing is kept. *)
Lemma best_loop_none (rules : list PatternRule) :
  (forall r, In r rules -> score request r = 0) ->
  best_loop request rules (None, 0) = (None, 0).
Proof.
  intros H. apply best_loop_keeps. intros r Hr. rewrite (H r Hr). lia.
Qed.

(** Among finitely many rules of which one scores, some rule scores highest
    and is the first to do so. *)
Lemma first_max_exists (rules : list PatternRule) :
  (exists r, In r rules /\ 0 < score request r) ->
  exists pre rule post,
    rules = pre ++ rule :: post /\
    0 < score request rule /\
    (forall r, In r pre -> score request r < score request rule) /\
    (forall r, In r post -> score request r <= score request rule).
Proof.
  induction rules as [|r rs IH]; intros (r0 & Hin & Hpos); [destruct Hin|].
  destruct (existsb (fun r' => score request r <? score request r') rs) eqn:E.
  - apply existsb_exists in E as (r1 & Hin1 & Hlt). apply Nat.ltb_lt in Hlt.
    destruct IH as (pre & rule & post & -> & Hp & Hpre & Hpost).
    { exists r1. split; [assumption | lia]. }
    destruct (le_lt_dec (score request rule) (score request r)) as [Hle | Hgt].
    + exfalso. apply in_app_or in Hin1 as [Hin1 | [<- | Hin1]].
      * apply Hpre in Hin1. lia.
      * lia.
      * apply Hpost in Hin1. lia.
    + exists (r :: pre), rule, post. repeat split; try assumption.
      intros r' [<- | Hr']; [assumption | now apply Hpre].
  - assert (Hall : forall r', In r' rs -> score request r' <= score request r).
    { intros r' Hr'.
      destruct (le_lt_dec (score request r') (score request r)) as [Hle | Hgt];
        [assumption | exfalso].
      enough (existsb (fun r' => score request r <? score request r') rs = true)
        by congruence.
      apply existsb_exists. exists r'. split; [assumption | now apply Nat.ltb_lt]. }
    exists [], r, rs. repeat split.
    + destruct Hin as [<- | Hin]; [assumption|]. apply Hall in Hin. lia.
    + intros r' [].
    + exact Hall.
Qed.

End Fallback.

Section FallbackTable.

Lemma nth_error_pre (rules pre post : list PatternRule) (rule r : PatternRule) :
  rules = pre ++ rule :: post -> In r pre ->
  exists j, j < length pre /\ nth_error rules j = Some r.
Proof.
  intros -> Hin. apply In_nth_error in Hin as [j Hj].
  assert (j < length pre) by (apply nth_error_Some; congruence).
  exists j. split; [assumption|]. now rewrite nth_error_app1.
Qed.

Lemma first_max_selected (user_request : string) (i : nat) (rule : PatternRule) :
  nth_error suggestions i = Some rule ->
  0 < score (lower user_request) rule ->
  (forall j other, nth_error suggestions j = Some other ->
     score (lower user_request) other <= score (lower user_request) rule) ->
  (forall j other, j < i -> nth_error suggestions j = Some other ->
     score (lower user_request) other < score (lower user_request) rule) ->
  _get_fallback_suggestion user_request = matched (snd rule).
Proof.
  intros Hnth Hpos Hmax Hfirst.
  destruct (nth_error_split _ _ Hnth) as (pre & post & Heq & Hlen).
  unfold _get_fallback_suggestion. rewrite Heq.
  rewrite (best_loop_first_max (lower user_request) pre post rule None 0).
  - reflexivity.
  - intros r Hr. destruct (nth_error_pre _ _ _ _ _ Heq Hr) as (j & Hj & Hn).
    apply (Hfirst j); [lia | assumption].
  - intros r Hr.
    assert (Hin : In r suggestions).
    { rewrite Heq. apply in_or_app. right. now right. }
    apply In_nth_error in Hin as [j Hj]. now apply (Hmax j).
  - exact Hpos.
Qed.

(** With no trigger phrase in the request, the placeholder is returned: a
    comment that quotes the request as it was typed. *)
Lemma fallback_placeholder (user_request : string) :
  (forall rule, In rule suggestions -> score (lower user_request) rule = 0) ->
  _get_fallback_suggestion user_request = placeholder user_request.
Proof.
  intros H. unfold _get_fallback_suggestion.
  now rewrite (best_loop_none (lower user_request) suggestions H).
Qed.

(** C2 (amended).  The matcher lower-cases the request; the score its loop
    gives a rule is the sum of the lengths of the rule's trigger phrases that
    occur in the lower-cased request (the others count for nothing).  When
    some trigger phrase occurs, the rule whose score is the highest, and
    strictly above the scores of all rules before it in the table, exists and
    has its template returned, so that of two rules with the highest score
    the first wins.  When no trigger phrase occurs, no rule is chosen and the
    placeholder is returned. *)
Theorem fallback_first_highest_score_wins (user_request : string) :
  (forall rule : PatternRule,
     rule_score (lower user_request) (fst rule) =
     list_sum
       (map (fun phrase =>
               if contains phrase (lower user_request) then String.length phrase else 0)
          (fst rule)))
  /\
  (forall (i : nat) (rule : PatternRule),
     nth_error suggestions i = Some rule ->
     0 < score (lower user_request) rule ->
     (forall j other, nth_error suggestions j = Some other ->
        score (lower user_request) other <= score (lower user_request) rule) ->
     (forall j other, j < i -> nth_error suggestions j = Some other ->
        score (lower user_request) other < score (lower user_request) rule) ->
     _get_fallback_suggestion user_request = matched (snd rule))
  /\
  ((exists rule, In rule suggestions /\ 0 < score (lower user_request) rule) ->
   exists (i : nat) (rule : PatternRule),
     nth_error suggestions i = Some rule /\
     0 < score (lower user_request) rule /\
     (forall j other, nth_error suggestions j = Some other ->
        score (lower user_request) other <= score (lower user_request) rule) /\
     (forall j other, j < i -> nth_error suggestions j = Some other ->
        score (lower user_request) other < score (lower user_request) rule))
  /\
  ((forall rule, In rule suggestions -> score (lower user_request) rule = 0) ->
   _get_fallback_suggestion user_request = placeholder user_request).
Proof.
  split; [|split; [|split]]; [| | |apply fallback_placeholder].
  - intros rule. apply rule_score_is_score.
  - apply first_max_selected.
  - intros Hex.
    destruct (first_max_exists (lower user_request) suggestions Hex)
      as (pre & rule & post & Heq & Hpos & Hpre & Hpost).
    exists (length pre), rule. repeat split.
    + rewrite Heq, nth_error_app2, Nat.sub_diag by lia. reflexivity.
    + exact Hpos.
    + intros j other Hj. apply nth_error_In in Hj. rewrite Heq in Hj.
      apply in_app_or in Hj as [Hj | [<- | Hj]].
      * apply Hpre in Hj. lia.
      * lia.
      * now apply Hpost.
    + intros j other Hlt Hj. apply Hpre.
      rewrite Heq, nth_error_app1 in Hj by assumption.
      now apply nth_error_In in Hj.
Qed.

Lemma scores_bounded (request : string) (rule : PatternRule) :
  forallb (fun other => score request other <=? score request rule) suggestions = true ->
  forall j other, nth_error suggestions j = Some other ->
    score request other <= score request rule.
Proof.
  intros H j other Hj. apply nth_error_In in Hj.
  rewrite forallb_forall in H. apply Nat.leb_le. now apply H.
Qed.

(** The request of the specification's scenario: the third rule of the table
    (the running services) is the one that scores. *)
Lemma fallback_first_highest_score_wins_witness :
  _get_fallback_suggestion "list all running services" =
  matched
    {| t_command := qq "Get-Service | Where-Object {$_.Status -eq `Running`} | Sort-Object Name";
       t_description := "List all running services sorted by name";
       t_shell := "powershell" |}.
Proof.
  apply (proj1 (proj2 (fallback_first_highest_score_wins "list all running services")) 2
           (["running services"; "active services"; "list services"],
            {| t_command := qq "Get-Service | Where-Object {$_.Status -eq `Running`} | Sort-Object Name";
               t_description := "List all running services sorted by name";
               t_shell := "powershell" |})).
  - reflexivity.
  - vm_compute. lia.
  - apply scores_bounded. vm_compute. reflexivity.
  - intros j other Hlt Hj.
    destruct j as [|[|j]]; [| |lia]; injection Hj as <-; vm_compute; lia.
Defined.

Lemma placeholder_is_no_template :
  forallb (fun rule : PatternRule =>
             negb (String.eqb (t_command (snd rule)) (command (placeholder "hello"))))
    suggestions = true.
Proof. vm_compute. reflexivity. Qed.

(** The request [hello] holds no trigger phrase: what comes back is the
    placeholder, which is the template of no rule, not even of the first rule
    of the table, with which every rule ties at the score 0. *)
Lemma fallback_unmatched_request :
  _get_fallback_suggestion "hello" = placeholder "hello"
  /\ (forall rule, In rule suggestions ->
        _get_fallback_suggestion "hello" <> matched (snd rule))
  /\ ~ (forall user_request : string,
          exists (i : nat) (rule : PatternRule),
            nth_error suggestions i = Some rule /\
            (forall j other, nth_error suggestions j = Some other ->
               score (lower user_request) other <= score (lower user_request) rule) /\
            (forall j other, j < i -> nth_error suggestions j = Some other ->
               score (lower user_request) other < score (lower user_request) rule) /\
            _get_fallback_suggestion user_request = matched (snd rule)).
Proof.
  assert (H : _get_fallback_suggestion "hello" = placeholder "hello")
    by (vm_compute; reflexivity).
  assert (Hn : forall rule, In rule suggestions ->
                 _get_fallback_suggestion "hello" <> matched (snd rule)).
  { intros rule Hin E. rewrite H in E.
    pose proof placeholder_is_no_template as Hall. rewrite forallb_forall in Hall.
    apply Hall in Hin. apply negb_true_iff in Hin. apply String.eqb_neq in Hin.
    apply Hin. now rewrite E. }
  split; [exact H|]. split; [exact Hn|].
  intros Hall. destruct (Hall "hello") as (i & rule & Hnth & _ & _ & E).
  apply (Hn rule); [now apply nth_error_In in Hnth | exact E].
Qed.

End FallbackTable.

(** ** The safety validation *)

Section Validator.

Variable st : Settings.

Lemma deny_list_fold (text : string) (fragments : list string) (r : Suggestion) :
  fold_left
    (fun res dangerous =>
       if contains dangerous text then set_warning res (JStr destructive_notice) else res)
    fragments r
  = if existsb (fun fragment => contains fragment text) fragments
    then set_warning r (JStr destructive_notice)
    else r.
Proof.
  revert r. induction fragments as [|d ds IH]; intros r; simpl; [reflexivity|].
  rewrite IH. destruct (contains d text); simpl; [|reflexivity].
  now destruct (existsb _ ds).
Qed.

Lemma destructive_strip (text : string) : destructive (strip text) = destructive text.
Proof.
  unfold destructive, dangerous_commands. simpl.
  now rewrite !contains_strip by reflexivity.
Qed.

Lemma destructive_lower_strip (c : string) :
  destructive (lower (strip c)) = destructive (lower c).
Proof. rewrite lower_strip. apply destructive_strip. Qed.

(** What [_validate_suggestion] makes of a dictionary whose [command] is a
    string. *)
Lemma validate_string_command (d : dict) (c : string) :
  dict_get "command" d = Some (JStr c) ->
  _validate_suggestion st (JObj d) =
  Ok (if truthy (strip c)
      then Some {| command := strip c;
                   description := dict_get_default "description" (JStr "") d;
                   shell := dict_get_default "shell" (JStr (default_shell st)) d;
                   warning := if destructive (lower c)
                              then JStr destructive_notice
                              else dict_get_default "warning" (JStr "") d |}
      else None).
Proof.
  intros H. unfold _validate_suggestion. rewrite H.
  cbv beta zeta. rewrite deny_list_fold.
  change (existsb _ dangerous_commands) with (destructive (lower (strip c))).
  rewrite destructive_lower_strip.
  destruct (destructive (lower c)); reflexivity.
Qed.

(** C4.  A suggestion whose command, lower-cased, contains [rm -rf /],
    [del /f /s /q], [format] or [fdisk] leaves the validation with the
    standard notice as its warning, which is not the empty one; one whose
    command contains none of the four keeps the warning it came with (none
    counts as the empty one); either way the record is returned, with its
    command trimmed and nothing else changed. *)
Theorem validate_flags_destructive (d : dict) (c : string) :
  dict_get "command" d = Some (JStr c) ->
  strip c <> EmptyString ->
  exists r : Suggestion,
    _validate_suggestion st (JObj d) = Ok (Some r) /\
    command r = strip c /\
    description r = dict_get_default "description" (JStr "") d /\
    shell r = dict_get_default "shell" (JStr (default_shell st)) d /\
    (contains "rm -rf /" (lower c) = true \/
     contains "del /f /s /q" (lower c) = true \/
     contains "format" (lower c) = true \/
     contains "fdisk" (lower c) = true ->
       warning r = JStr "⚠️ This command could be destructive. Please review carefully!" /\
       warning r <> JStr "") /\
    (contains "rm -rf /" (lower c) = false ->
     contains "del /f /s /q" (lower c) = false ->
     contains "format" (lower c) = false ->
     contains "fdisk" (lower c) = false ->
       warning r = dict_get_default "warning" (JStr "") d).
Proof.
  intros Hc Hne. rewrite (validate_string_command d c Hc).
  apply truthy_true in Hne. rewrite Hne.
  eexists. split; [reflexivity|]. simpl.
  split; [reflexivity|]. split; [reflexivity|]. split; [reflexivity|].
  unfold destructive, dangerous_commands. cbn [existsb]. split.
  - intros E.
    assert (Hd : contains "rm -rf /" (lower c) || (contains "del /f /s /q" (lower c)
                 || (contains "format" (lower c)
                 || (contains "fdisk" (lower c) || false))) = true).
    { destruct E as [E | [E | [E | E]]]; rewrite E; now rewrite ?orb_true_r. }
    rewrite Hd. split; [reflexivity | discriminate].
  - intros E1 E2 E3 E4. now rewrite E1, E2, E3, E4.
Qed.


(** C6.  A reply that decodes as JSON and is not an object, or is an object
    without the key [command], or one whose [command] is empty or only white
    space, gives no record. *)
Theorem normalizer_rejects_missing_command (content : string) (v : json) :
  json_loads content = Some v ->
  (forall d, v <> JObj d)
  \/ (exists d, v = JObj d /\ dict_get "command" d = None)
  \/ (exists d c, v = JObj d /\ dict_get "command" d = Some (JStr c)
                  /\ strip c = EmptyString) ->
  _parse_ai_response st content = Ok None.
Proof.
  intros Hv H. unfold _parse_ai_response. rewrite Hv.
  destruct H as [H | [(d & -> & H) | (d & c & -> & H & Hs)]].
  - destruct v; try reflexivity. now elim (H members).
  - simpl. now rewrite H.
  - rewrite (validate_string_command d c H), Hs. reflexivity.
Qed.

End Validator.

(** ** The line-oriented extraction *)

Section TextPath.

Variable st : Settings.

Lemma eqb_empty (s : string) : String.eqb s EmptyString = negb (truthy s).
Proof. now destruct s. Qed.

Lemma text_step_spelled (acc : string * string) (raw : string) :
  text_step acc raw = Ok (extract_step as_spelled acc raw).
Proof.
  destruct acc as [c d]. unfold text_step, extract_step, as_spelled.
  change (capital "command:") with "Command:"%string.
  change (capital "description:") with "Description:"%string.
  generalize (strip raw). intros line.
  destruct (startswith line "Command:" || startswith line "command:") eqn:E1.
  { set (x := drop (String.length "command:") line).
    apply orb_prop in E1 as [E1 | E1]; apply startswith_split in E1;
      change (drop _ line) with x in E1; clearbody x; now rewrite E1. }
  destruct (startswith line "Description:" || startswith line "description:") eqn:E2.
  { set (x := drop (String.length "description:") line).
    apply orb_prop in E2 as [E2 | E2]; apply startswith_split in E2;
      change (drop _ line) with x in E2; clearbody x; now rewrite E2. }
  cbn [fst snd]. rewrite !eqb_empty, negb_involutive.
  now destruct (negb (truthy c) && truthy line && negb (startswith line "#")).
Qed.

Lemma text_loop_spelled (lines : list string) (acc : string * string) :
  text_loop lines acc = Ok (fold_left (extract_step as_spelled) lines acc).
Proof.
  revert acc. induction lines as [|raw rest IH]; intros acc; [reflexivity|].
  simpl. rewrite text_step_spelled. simpl. apply IH.
Qed.

(** The text path never raises, and does what the extraction with the labels
    as spelled says. *)
Lemma parse_text_response_spelled (content : string) :
  _parse_text_response st content = Ok (extract as_spelled st content).
Proof.
  unfold _parse_text_response, extract. rewrite text_loop_spelled. simpl.
  destruct (fold_left _ _ _) as [c d]. simpl. rewrite eqb_empty.
  now destruct (truthy c).
Qed.

(** A record of the text path has the empty warning and the default shell. *)
Lemma text_record_fields (content : string) (r : Suggestion) :
  _parse_text_response st content = Ok (Some r) ->
  warning r = JStr EmptyString /\ shell r = JStr (default_shell st).
Proof.
  rewrite parse_text_response_spelled. unfold extract.
  destruct (String.eqb _ _); [discriminate|].
  intros H. injection H as <-. split; reflexivity.
Qed.

End TextPath.

Section TextPathClaims.

Variable st : Settings.

(** C5 (amended).  When the reply does not decode as JSON, its lines are
    scanned from the top: a trimmed line that begins with [Command:] or
    [command:] (with [Description:] or [description:]) fills that field with
    what follows the label, trimmed; no other casing of a label counts.  A
    line that is not empty, is no label line and does not begin with [#] is
    taken as the command while the command is empty.  There is no record
    exactly when the command is empty after the last line. *)
Theorem text_extraction_labels_as_spelled (content : string) :
  json_loads content = None ->
  _parse_ai_response st content = Ok (extract as_spelled st content)
  /\ (_parse_ai_response st content = Ok None <->
      fst (fold_left (extract_step as_spelled) (split "010" content)
             (EmptyString, EmptyString)) = EmptyString).
Proof.
  intros H. unfold _parse_ai_response. rewrite H, parse_text_response_spelled.
  split; [reflexivity|]. unfold extract.
  destruct (fold_left _ _ _) as [c d]. simpl.
  destruct c; simpl; split; congruence.
Qed.

(** C9.  A record of the text path has the empty warning and the default
    shell: the deny-list is not consulted there, so a command with a fragment
    of the list, such as the recursive delete of the root, comes back with an
    empty warning. *)
Theorem text_path_never_warns :
  (forall (content : string) (r : Suggestion),
     _parse_text_response st content = Ok (Some r) ->
     warning r = JStr EmptyString /\ shell r = JStr (default_shell st))
  /\
  (forall (content : string) (r : Suggestion),
     json_loads content = None ->
     _parse_ai_response st content = Ok (Some r) ->
     warning r = JStr EmptyString /\ shell r = JStr (default_shell st))
  /\
  (destructive (lower "rm -rf /") = true /\
   _parse_ai_response st "rm -rf /" =
   Ok (Some {| command := "rm -rf /";
               description := JStr EmptyString;
               shell := JStr (default_shell st);
               warning := JStr EmptyString |})).
Proof.
  split; [apply text_record_fields | split].
  - intros content r Hj. unfold _parse_ai_response. rewrite Hj. apply text_record_fields.
  - split; [reflexivity|].
    unfold _parse_ai_response.
    replace (json_loads "rm -rf /") with (@None json) by (vm_compute; reflexivity).
    rewrite parse_text_response_spelled. reflexivity.
Qed.

(** The command found by the extraction is trimmed. *)
Lemma extract_step_trimmed (acc : string * string) (raw : string) :
  strip (fst acc) = fst acc ->
  strip (fst (extract_step as_spelled acc raw)) = fst (extract_step as_spelled acc raw).
Proof.
  intros H. unfold extract_step.
  destruct (as_spelled "command:" (strip raw)); [apply strip_idem|].
  destruct (as_spelled "description:" (strip raw)); [exact H|].
  destruct (_ && _); [apply strip_idem | exact H].
Qed.

Lemma extract_fold_trimmed (lines : list string) (acc : string * string) :
  strip (fst acc) = fst acc ->
  strip (fst (fold_left (extract_step as_spelled) lines acc))
  = fst (fold_left (extract_step as_spelled) lines acc).
Proof.
  revert acc. induction lines as [|raw rest IH]; intros acc H; [exact H|].
  simpl. apply IH. now apply extract_step_trimmed.
Qed.

Lemma text_record_command (content : string) (r : Suggestion) :
  _parse_text_response st content = Ok (Some r) ->
  strip (command r) = command r /\ command r <> EmptyString.
Proof.
  rewrite parse_text_response_spelled. unfold extract.
  pose proof (extract_fold_trimmed (split "010" content) (EmptyString, EmptyString) eq_refl) as Ht.
  destruct (String.eqb _ _) eqn:E; [discriminate|].
  intros H. injection H as <-. simpl. split; [exact Ht|].
  intros E'. rewrite E' in E. discriminate.
Qed.

End TextPathClaims.

(** The reply [COMMAND: ls]: the label in capitals is not taken for a label,
    and the whole line becomes the command, where the extraction with labels
    in any casing gives [ls].  The reply [42] decodes as JSON, though not as
    an object: it gives no record, and its line is never looked at. *)
Lemma text_extraction_any_casing_fails :
  json_loads "COMMAND: ls" = None
  /\ _parse_ai_response defaults "COMMAND: ls" =
     Ok (Some {| command := "COMMAND: ls"; description := JStr EmptyString;
                 shell := JStr "powershell"; warning := JStr EmptyString |})
  /\ extract any_casing defaults "COMMAND: ls" =
     Some {| command := "ls"; description := JStr EmptyString;
             shell := JStr "powershell"; warning := JStr EmptyString |}
  /\ ~ (forall (st : Settings) (content : string),
          json_loads content = None ->
          _parse_ai_response st content = Ok (extract any_casing st content))
  /\ (json_loads "42" = Some (JNum "42")
      /\ _parse_ai_response defaults "42" = Ok None
      /\ extract any_casing defaults "42" =
         Some {| command := "42"; description := JStr EmptyString;
                 shell := JStr "powershell"; warning := JStr EmptyString |}).
Proof.
  split; [vm_compute; reflexivity|].
  split; [vm_compute; reflexivity|].
  split; [vm_compute; reflexivity|].
  split.
  - intros H. specialize (H defaults "COMMAND: ls" ltac:(vm_compute; reflexivity)).
    vm_compute in H. discriminate.
  - repeat split; vm_compute; reflexivity.
Qed.

Lemma text_extraction_labels_as_spelled_witness :
  _parse_ai_response defaults "# suggestion
Command:  Get-Service  
description: lists the services" =
  Ok (extract as_spelled defaults "# suggestion
Command:  Get-Service  
description: lists the services")
  /\ (_parse_ai_response defaults "# suggestion
Command:  Get-Service  
description: lists the services" = Ok None <->
      fst (fold_left (extract_step as_spelled) (split "010" "# suggestion
Command:  Get-Service  
description: lists the services")
             (EmptyString, EmptyString)) = EmptyString).
Proof.
  apply (text_extraction_labels_as_spelled defaults). vm_compute. reflexivity.
Defined.

Lemma text_path_never_warns_witness :
  warning {| command := "rm -rf /"; description := JStr EmptyString;
             shell := JStr "powershell"; warning := JStr EmptyString |} = JStr EmptyString
  /\ shell {| command := "rm -rf /"; description := JStr EmptyString;
              shell := JStr "powershell"; warning := JStr EmptyString |}
     = JStr (default_shell defaults).
Proof.
  apply (proj1 (proj2 (text_path_never_warns defaults)) "rm -rf /").
  - vm_compute. reflexivity.
  - vm_compute. reflexivity.
Defined.

(** A wipe of the root, in capitals and with the empty warning it came
    with, is flagged; a listing keeps its empty warning. *)
Lemma validate_flags_destructive_witness :
  (exists r : Suggestion,
     _validate_suggestion defaults
       (JObj [("command", JStr " sudo RM -rf / "); ("description", JStr "wipe");
              ("shell", JStr "powershell"); ("warning", JStr "")]) = Ok (Some r) /\
     command r = "sudo RM -rf /" /\
     warning r = JStr "⚠️ This command could be destructive. Please review carefully!" /\
     warning r <> JStr "")
  /\
  (exists r : Suggestion,
     _validate_suggestion defaults
       (JObj [("command", JStr "ls -la"); ("warning", JStr "")]) = Ok (Some r) /\
     command r = "ls -la" /\
     warning r = JStr "").
Proof.
  split.
  - destruct (validate_flags_destructive defaults
                [("command", JStr " sudo RM -rf / "); ("description", JStr "wipe");
                 ("shell", JStr "powershell"); ("warning", JStr "")] " sudo RM -rf / ")
      as (r & Hr & Hcmd & _ & _ & Hflag & _).
    + reflexivity.
    + vm_compute. discriminate.
    + exists r. split; [exact Hr|]. split; [exact Hcmd|].
      apply Hflag. left. vm_compute. reflexivity.
  - destruct (validate_flags_destructive defaults
                [("command", JStr "ls -la"); ("warning", JStr "")] "ls -la")
      as (r & Hr & Hcmd & _ & _ & _ & Hkeep).
    + reflexivity.
    + vm_compute. discriminate.
    + exists r. split; [exact Hr|]. split; [exact Hcmd|].
      apply Hkeep; vm_compute; reflexivity.
Defined.


(** The scenario of the specification: an object with an empty command. *)
Lemma normalizer_rejects_missing_command_witness :
  _parse_ai_response defaults (qq "{`command`: ``, `description`: `x`}") = Ok None.
Proof.
  apply (normalizer_rejects_missing_command defaults
           (qq "{`command`: ``, `description`: `x`}")
           (JObj [("command", JStr ""); ("description", JStr "x")])).
  - vm_compute. reflexivity.
  - right. right. exists [("command", JStr ""); ("description", JStr "x")], EmptyString.
    repeat split; reflexivity.
Defined.

(** ** The engine *)

Section Engine.

Lemma validate_some_inv (st : Settings) (v : json) (r : Suggestion) :
  _validate_suggestion st v = Ok (Some r) ->
  exists d c,
    v = JObj d /\ dict_get "command" d = Some (JStr c) /\
    strip c <> EmptyString /\ command r = strip c /\
    shell r = dict_get_default "shell" (JStr (default_shell st)) d.
Proof.
  destruct v as [| | | | |d]; try discriminate.
  destruct (dict_get "command" d) as [cv|] eqn:E; [|simpl; rewrite E; discriminate].
  destruct cv as [| | |c| |]; try (simpl; rewrite E; discriminate).
  rewrite (validate_string_command st d c E).
  destruct (truthy (strip c)) eqn:Et; [|discriminate].
  intros H. injection H as <-. exists d, c.
  split; [reflexivity|]. split; [exact E|].
  split; [now apply truthy_true|]. split; reflexivity.
Qed.

Lemma parsed_record_command (st : Settings) (content : string) (r : Suggestion) :
  _parse_ai_response st content = Ok (Some r) ->
  strip (command r) = command r /\ command r <> EmptyString.
Proof.
  unfold _parse_ai_response. destruct (json_loads content) as [v|].
  - intros H. apply validate_some_inv in H as (d & c & _ & _ & Hne & Hc & _).
    rewrite Hc. split; [apply strip_idem | exact Hne].
  - apply text_record_command.
Qed.

Lemma table_well_formed :
  forallb (fun rule : PatternRule =>
             truthy (strip (t_command (snd rule))) && mem (t_shell (snd rule)) valid_shells)
    suggestions = true.
Proof. vm_compute. reflexivity. Qed.

Lemma mem_valid_shells (x : string) :
  mem x valid_shells = true -> shell_in_enum (JStr x).
Proof.
  unfold mem, valid_shells, shell_in_enum. simpl. rewrite orb_false_r.
  intros H. apply orb_prop in H as [H | H]; apply String.eqb_eq in H; subst; auto.
Qed.

Lemma fallback_record_invariant (user_request : string) :
  record_invariant (_get_fallback_suggestion user_request).
Proof.
  unfold _get_fallback_suggestion, record_invariant.
  destruct (fst (best_loop (lower user_request) suggestions (None, 0))) as [t|] eqn:E.
  - apply best_loop_in in E as [E | (rule & Hin & <-)]; [discriminate|].
    pose proof table_well_formed as H. rewrite forallb_forall in H.
    apply H in Hin. apply andb_prop in Hin as [H1 H2]. simpl. split.
    + now apply truthy_true.
    + now apply mem_valid_shells.
  - simpl. split.
    + apply strip_nonempty_head. reflexivity.
    + now left.
Qed.

(** What [suggest_command] returns, by what the gateway got. *)
Lemma suggest_command_cases (be : Backend) (ai : CommandAI) (user_request : string) :
  suggest_command be ai user_request =
  match backend_reply be ai user_request with
  | Some (Ok content) =>
      match _parse_ai_response (settings ai) (strip content) with
      | Ok r => r
      | Raise _ => Some (_get_fallback_suggestion user_request)
      end
  | _ => Some (_get_fallback_suggestion user_request)
  end.
Proof.
  unfold suggest_command, backend_reply.
  destruct (String.eqb (ai_provider (settings ai)) "fallback"); [reflexivity|].
  destruct (String.eqb (ai_provider (settings ai)) "openai" && openai_client ai).
  - unfold _suggest_with_openai, openai_body.
    now destruct (chat_completions_create be _ _ _).
  - destruct (gemini_model ai) as [m|]; [|reflexivity].
    destruct (String.eqb (ai_provider (settings ai)) "gemini"); [|reflexivity].
    unfold _suggest_with_gemini, gemini_body.
    now destruct (generate_content be _ _).
Qed.

(** C1 (amended).  [suggest_command] returns the record of the fallback
    matcher whenever no backend is asked, the call raises, or the handling of
    the reply raises (a JSON object whose command is not a string).  When the
    reply is handled without an exception the outcome of the normaliser is
    returned as it is: a record, or [None] when the reply decodes to something
    without a usable command or the text holds no command.  So [None] is
    returned exactly in that last case. *)
Theorem suggest_command_fallback_or_normalized
  (be : Backend) (ai : CommandAI) (user_request : string) :
  (backend_reply be ai user_request = None ->
   suggest_command be ai user_request = Some (_get_fallback_suggestion user_request))
  /\
  (forall e, backend_reply be ai user_request = Some (Raise e) ->
   suggest_command be ai user_request = Some (_get_fallback_suggestion user_request))
  /\
  (forall content e,
     backend_reply be ai user_request = Some (Ok content) ->
     _parse_ai_response (settings ai) (strip content) = Raise e ->
     suggest_command be ai user_request = Some (_get_fallback_suggestion user_request))
  /\
  (forall content r,
     backend_reply be ai user_request = Some (Ok content) ->
     _parse_ai_response (settings ai) (strip content) = Ok r ->
     suggest_command be ai user_request = r)
  /\
  (suggest_command be ai user_request = None <->
   exists content,
     backend_reply be ai user_request = Some (Ok content) /\
     _parse_ai_response (settings ai) (strip content) = Ok None).
Proof.
  rewrite suggest_command_cases.
  split; [|split; [|split; [|split]]].
  - now intros ->.
  - now intros e ->.
  - now intros content e -> ->.
  - now intros content r -> ->.
  - split.
    + destruct (backend_reply be ai user_request) as [[content|e]|]; try discriminate.
      destruct (_parse_ai_response (settings ai) (strip content)) as [r|e] eqn:E;
        [|discriminate].
      intros ->. now exists content.
    + intros (content & -> & ->). reflexivity.
Qed.

(** C7 (amended).  Every record handed to a caller has a command that is not
    empty after trimming.  Its shell is one of the two values of the
    enumeration on the text path (for settings that went through their
    validation) and on the fallback path; on the structured path the shell is
    whatever the reply holds under [shell], the default shell only filling
    in for a missing key. *)
Theorem exposed_records_invariant :
  (forall be ai user_request r,
     suggest_command be ai user_request = Some r ->
     strip (command r) <> EmptyString)
  /\
  (forall st content r,
     mem (default_shell st) valid_shells = true ->
     _parse_text_response st content = Ok (Some r) ->
     record_invariant r)
  /\
  (forall user_request, record_invariant (_get_fallback_suggestion user_request))
  /\
  (forall st v r,
     _validate_suggestion st v = Ok (Some r) ->
     strip (command r) <> EmptyString /\
     exists d, v = JObj d /\
       shell r = dict_get_default "shell" (JStr (default_shell st)) d).
Proof.
  split; [|split; [|split]].
  - intros be ai user_request r. rewrite suggest_command_cases.
    assert (Hfb : forall r', Some (_get_fallback_suggestion user_request) = Some r' ->
                             strip (command r') <> EmptyString).
    { intros r' H. injection H as <-. apply fallback_record_invariant. }
    destruct (backend_reply be ai user_request) as [[content|e]|]; try apply Hfb.
    destruct (_parse_ai_response (settings ai) (strip content)) as [o|e] eqn:E;
      [|apply Hfb].
    intros ->. apply parsed_record_command in E as [E1 E2]. now rewrite E1.
  - intros st content r Hs H. split.
    + apply text_record_command in H as [E1 E2]. now rewrite E1.
    + apply text_record_fields in H as [_ ->].
      now apply mem_valid_shells.
  - apply fallback_record_invariant.
  - intros st v r H. apply validate_some_inv in H as (d & c & -> & _ & Hne & Hc & Hs).
    split.
    + now rewrite Hc, strip_idem.
    + now exists d.
Qed.

(** Settings that went through [_validate] name one of the two shells. *)
Lemma validated_settings_shell (st : Settings) :
  mem (default_shell (_validate st)) valid_shells = true.
Proof.
  unfold _validate. cbn [default_shell].
  destruct (mem (default_shell st) valid_shells) eqn:E; [exact E | reflexivity].
Qed.

End Engine.

(** The scenario of the specification, run through the engine: the backend
    answers with an object whose command is empty, and the caller gets
    [None], not the record of the fallback matcher. *)
Lemma suggest_command_returns_none :
  suggest_command (replying (qq "{`command`: ``, `description`: `x`}"))
    (__init__ (replying (qq "{`command`: ``, `description`: `x`}")) openai_settings)
    "list files" = None
  /\ suggest_command (replying (qq "{`command`: ``, `description`: `x`}"))
       (__init__ (replying (qq "{`command`: ``, `description`: `x`}")) openai_settings)
       "list files" <> Some (_get_fallback_suggestion "list files")
  /\ ~ (forall be st user_request,
          suggest_command be (__init__ be st) user_request <> None).
Proof.
  assert (H : suggest_command (replying (qq "{`command`: ``, `description`: `x`}"))
                (__init__ (replying (qq "{`command`: ``, `description`: `x`}")) openai_settings)
                "list files" = None) by (vm_compute; reflexivity).
  split; [exact H|]. split.
  - rewrite H. discriminate.
  - intros Hall. exact (Hall _ _ _ H).
Qed.

Lemma suggest_command_fallback_or_normalized_witness :
  suggest_command (replying "ls") (__init__ (replying "ls") defaults) "disk space"
  = Some (_get_fallback_suggestion "disk space")
  /\ suggest_command (replying "Command: Get-Date")
       (__init__ (replying "Command: Get-Date") openai_settings) "what time is it"
     = Some {| command := "Get-Date"; description := JStr EmptyString;
               shell := JStr "powershell"; warning := JStr EmptyString |}.
Proof.
  split.
  - apply (proj1 (suggest_command_fallback_or_normalized (replying "ls")
                    (__init__ (replying "ls") defaults) "disk space")).
    vm_compute. reflexivity.
  - apply (proj1 (proj2 (proj2 (proj2
             (suggest_command_fallback_or_normalized (replying "Command: Get-Date")
                (__init__ (replying "Command: Get-Date") openai_settings)
                "what time is it"))))
             "Command: Get-Date").
    + vm_compute. reflexivity.
    + vm_compute. reflexivity.
Defined.

(** A reply that names a shell outside the enumeration reaches the caller
    with that shell. *)
Lemma structured_record_shell_outside_enum :
  suggest_command (replying (qq "{`command`: `ls`, `shell`: `bash`}"))
    (__init__ (replying (qq "{`command`: `ls`, `shell`: `bash`}")) openai_settings)
    "list files"
  = Some {| command := "ls"; description := JStr EmptyString;
            shell := JStr "bash"; warning := JStr EmptyString |}
  /\ ~ record_invariant
         {| command := "ls"; description := JStr EmptyString;
            shell := JStr "bash"; warning := JStr EmptyString |}
  /\ ~ (forall be st user_request r,
          mem (default_shell st) valid_shells = true ->
          suggest_command be (__init__ be st) user_request = Some r ->
          record_invariant r).
Proof.
  assert (H : suggest_command (replying (qq "{`command`: `ls`, `shell`: `bash`}"))
                (__init__ (replying (qq "{`command`: `ls`, `shell`: `bash`}")) openai_settings)
                "list files"
              = Some {| command := "ls"; description := JStr EmptyString;
                        shell := JStr "bash"; warning := JStr EmptyString |})
    by (vm_compute; reflexivity).
  assert (Hn : ~ record_invariant
                 {| command := "ls"; description := JStr EmptyString;
                    shell := JStr "bash"; warning := JStr EmptyString |}).
  { intros [_ [E | E]]; discriminate. }
  split; [exact H|]. split; [exact Hn|].
  intros Hall. apply Hn. apply (Hall _ openai_settings _ _ eq_refl H).
Qed.

Lemma exposed_records_invariant_witness :
  strip (command {| command := "ls"; description := JStr EmptyString;
                    shell := JStr "bash"; warning := JStr EmptyString |}) <> EmptyString
  /\ record_invariant
       {| command := "Get-Date"; description := JStr EmptyString;
          shell := JStr "powershell"; warning := JStr EmptyString |}.
Proof.
  split.
  - apply (proj1 exposed_records_invariant
             (replying (qq "{`command`: `ls`, `shell`: `bash`}"))
             (__init__ (replying (qq "{`command`: `ls`, `shell`: `bash`}")) openai_settings)
             "list files").
    vm_compute. reflexivity.
  - apply (proj1 (proj2 exposed_records_invariant) defaults "Command: Get-Date").
    + vm_compute. reflexivity.
    + vm_compute. reflexivity.
Defined.

(** ** The executors *)

Section Executors.

(** The native-shell handler waits for thirty seconds at most. *)
Lemma execute_times_out (os : OS) (h : PowerShellHandler) (command : string) :
  is_available h = true ->
  console (os [ps_command h; "-Command"; command]) command = true ->
  start (os [ps_command h; "-Command"; command]) = Started ->
  exited (os [ps_command h; "-Command"; command]) 30 = false ->
  garbled_when_killed (os [ps_command h; "-Command"; command]) = false ->
  execute os h command = [Executing command; TimedOut].
Proof.
  intros Ha Hc Hs He Hg. unfold execute, subprocess_run.
  now rewrite Ha, Hc, Hs, He, Hg.
Qed.

(** The loop of the scripting-runtime handler ends once the subordinate has
    exited and its lines are read. *)
Lemma stream_loop_ends (p : Process) (t : nat) :
  exit_time p = Some t ->
  stderr_blocks p = false ->
  forall pending now printed,
  exists fuel result, stream_loop fuel p now pending printed = Some result.
Proof.
  intros Ht Hb. induction pending as [|line rest IH]; intros now printed.
  - remember (t - now) as k eqn:Hk. revert now Hk.
    induction k as [|k IHk]; intros now Hk.
    + exists 1, printed. simpl. unfold exited. rewrite Ht, Hb.
      assert (E : (t <=? now) = true) by (apply Nat.leb_le; lia). now rewrite E.
    + destruct (IHk (S now) ltac:(lia)) as (fuel & result & H).
      exists (S fuel), result. simpl. unfold exited. rewrite Ht, Hb.
      assert (E : (t <=? now) = false) by (apply Nat.leb_gt; lia). now rewrite E.
  - destruct (IH now (if truthy line then printed ++ [Output (strip line)] else printed))
      as (fuel & result & H).
    exists (S fuel), result. exact H.
Qed.

Lemma execute_single_command_returns (os : OS) (python command : string) (t : nat) :
  exit_time (os [python; "-c"; command]) = Some t ->
  stderr_blocks (os [python; "-c"; command]) = false ->
  exists fuel report, _execute_single_command fuel os python command = Some report.
Proof.
  intros Ht Hb. unfold _execute_single_command.
  destruct (launches _); simpl; [|now exists 0, [Fault]].
  destruct (stream_loop_ends _ t Ht Hb (stdout_lines (os [python; "-c"; command])) 0 [])
    as (fuel & result & H).
  exists fuel. rewrite H. eauto.
Qed.

(** With a subordinate that never exits, or one stopped on its error text,
    the loop never ends: nothing bounds the wait. *)
Lemma stream_loop_waits (p : Process) :
  (forall now, negb (stderr_blocks p) && exited p now = false) ->
  forall fuel now pending printed, stream_loop fuel p now pending printed = None.
Proof.
  intros Hp. induction fuel as [|fuel IH]; intros now pending printed; [reflexivity|].
  simpl. destruct pending as [|line rest]; [|apply IH].
  rewrite Hp. apply IH.
Qed.

Lemma stream_loop_hangs (p : Process) :
  exit_time p = None ->
  forall fuel now pending printed, stream_loop fuel p now pending printed = None.
Proof.
  intros Hp. apply stream_loop_waits. intros now.
  unfold exited. rewrite Hp. apply andb_false_r.
Qed.

Lemma execute_single_command_hangs (os : OS) (python command : string) :
  launches (os [python; "-c"; command]) = true ->
  exit_time (os [python; "-c"; command]) = None ->
  forall fuel, _execute_single_command fuel os python command = None.
Proof.
  intros Hl He fuel. unfold _execute_single_command. rewrite Hl. simpl.
  now rewrite stream_loop_hangs.
Qed.

(** The scenario of the specification: a statement that prints one line and
    exits with code 0 has its line printed and its success reported. *)
Lemma execute_single_command_prints_once :
  _execute_single_command 3 (fun _ => prints_once "hello") "python" "print('hello')"
  = Some [Output "hello"; Completed].
Proof. reflexivity. Qed.

(** Without a shell binary that answers, the native-shell handler only
    reports that it is not available. *)
Lemma execute_unavailable (os : OS) (command : string) :
  probe os ["powershell"; "pwsh"] = None ->
  execute os (powershell_handler os) command = [Unavailable].
Proof. intros H. unfold powershell_handler. now rewrite H. Qed.

(** C3.  On a subordinate that never exits, the native-shell handler reports
    a timeout after its thirty seconds, and the scripting-runtime handler
    never returns, whatever time it is given: its call carries no timeout. *)
Theorem scripting_handler_waits_forever :
  execute (fun _ => hanging) {| is_available := true; ps_command := "powershell" |}
    "while ($true) {}"
  = [Executing "while ($true) {}"; TimedOut]
  /\
  forall fuel : nat,
    _execute_single_command fuel (fun _ => hanging) "python" "while True: pass" = None.
Proof.
  split; [reflexivity|].
  now apply execute_single_command_hangs.
Qed.

End Executors.

(** ** Encoding and decoding *)

Section RoundTrip.

Lemma append_assoc_s (a b c : string) : ((a ++ b) ++ c = a ++ (b ++ c))%string.
Proof. induction a as [|x a IH]; simpl; [reflexivity | now rewrite IH]. Qed.

Lemma scan_escape_char (c : ascii) (rest : string) :
  scanstring None (escape_char c ++ rest)%string
  = emit (String c EmptyString) (scanstring None rest).
Proof. destruct c as [[] [] [] [] [] [] [] []]; reflexivity. Qed.

(** The body of an encoded string is read back as the string. *)
Lemma scan_escape (s rest : string) :
  scanstring None (escape s ++ String dquote rest)%string = Some (s, rest).
Proof.
  induction s as [|c r IH]; [reflexivity|].
  simpl escape. rewrite append_assoc_s, scan_escape_char, IH. reflexivity.
Qed.

Lemma scan_once_eq (f : nat) (c : ascii) (r : string) :
  scan_once (S f) (String c r) =
  if Ascii.eqb c dquote then
    match scanstring None r with
    | Some (x, rest) => Scanned (JStr x) rest
    | None => Malformed
    end
  else if Ascii.eqb c "{" then
    match skip_ws r with
    | String c1 r1 =>
        if Ascii.eqb c1 "}" then Scanned (JObj []) r1
        else parse_members f (String c1 r1) []
    | EmptyString => Malformed
    end
  else if Ascii.eqb c "[" then
    match skip_ws r with
    | String c1 r1 =>
        if Ascii.eqb c1 "]" then Scanned (JArr []) r1
        else parse_elements f (String c1 r1) []
    | EmptyString => Malformed
    end
  else scan_atom (String c r).
Proof. reflexivity. Qed.

Lemma parse_members_eq (f : nat) (c : ascii) (r : string) (acc : dict) :
  parse_members (S f) (String c r) acc =
  if Ascii.eqb c dquote then
    match scanstring None r with
    | None => Malformed
    | Some (k, r1) =>
        match skip_ws r1 with
        | EmptyString => Malformed
        | String c2 r2 =>
            if Ascii.eqb c2 ":" then
              match scan_once f (skip_ws r2) with
              | Scanned v r3 =>
                  match skip_ws r3 with
                  | EmptyString => Malformed
                  | String c4 r4 =>
                      if Ascii.eqb c4 "}" then Scanned (JObj (dict_set k v acc)) r4
                      else if Ascii.eqb c4 ","
                      then parse_members f (skip_ws r4) (dict_set k v acc)
                      else Malformed
                  end
              | Malformed => Malformed
              | OutOfFuel => OutOfFuel
              end
            else Malformed
        end
    end
  else Malformed.
Proof. reflexivity. Qed.

Lemma scan_encoded_string (f : nat) (v rest : string) :
  scan_once (S f) (encode_string v ++ rest)%string = Scanned (JStr v) rest.
Proof.
  unfold encode_string.
  change (String dquote (escape v ++ String dquote "") ++ rest)%string
    with (String dquote ((escape v ++ String dquote "") ++ rest))%string.
  rewrite scan_once_eq. change (Ascii.eqb dquote dquote) with true. cbv iota.
  rewrite append_assoc_s.
  change (String dquote "" ++ rest)%string with (String dquote rest).
  now rewrite scan_escape.
Qed.

(** One member of an object, followed by a comma and a blank. *)
Lemma parse_member_more (f : nat) (k v rest : string) (acc : dict) :
  parse_members (S (S f)) (member k v ++ String "," (String " " (String dquote rest)))%string acc
  = parse_members (S f) (String dquote rest) (dict_set k (JStr v) acc).
Proof.
  unfold member, encode_string at 1.
  rewrite !append_assoc_s.
  change (String dquote (escape k ++ String dquote "") ++ ?x)%string
    with (String dquote ((escape k ++ String dquote "") ++ x))%string.
  rewrite parse_members_eq. change (Ascii.eqb dquote dquote) with true. cbv iota.
  rewrite append_assoc_s.
  change (String dquote "" ++ ?x)%string with (String dquote x).
  rewrite scan_escape.
  change (": " ++ ?x)%string with (String ":" (String " " x)).
  change (skip_ws (String ":" ?x)) with (String ":" x).
  change (Ascii.eqb ":" ":") with true. cbv iota.
  change (skip_ws (String " " (encode_string v ++ ?x)))%string
    with (encode_string v ++ x)%string.
  rewrite scan_encoded_string.
  reflexivity.
Qed.

(** The last member of an object, followed by the closing brace. *)
Lemma parse_member_last (f : nat) (k v rest : string) (acc : dict) :
  parse_members (S (S f)) (member k v ++ String "}" rest)%string acc
  = Scanned (JObj (dict_set k (JStr v) acc)) rest.
Proof.
  unfold member, encode_string at 1.
  rewrite !append_assoc_s.
  change (String dquote (escape k ++ String dquote "") ++ ?x)%string
    with (String dquote ((escape k ++ String dquote "") ++ x))%string.
  rewrite parse_members_eq. change (Ascii.eqb dquote dquote) with true. cbv iota.
  rewrite append_assoc_s.
  change (String dquote "" ++ ?x)%string with (String dquote x).
  rewrite scan_escape.
  change (": " ++ ?x)%string with (String ":" (String " " x)).
  change (skip_ws (String ":" ?x)) with (String ":" x).
  change (Ascii.eqb ":" ":") with true. cbv iota.
  change (skip_ws (String " " (encode_string v ++ ?x)))%string
    with (encode_string v ++ x)%string.
  rewrite scan_encoded_string.
  reflexivity.
Qed.

End RoundTrip.

Section RecordRoundTrip.

Lemma parse_member_then (f : nat) (k v k' v' rest : string) (acc : dict) :
  parse_members (S (S f)) (member k v ++ ", " ++ member k' v' ++ rest)%string acc
  = parse_members (S f) (member k' v' ++ rest)%string (dict_set k (JStr v) acc).
Proof.
  assert (Ht : (member k' v' ++ rest)%string =
               String dquote (((escape k' ++ String dquote "")
                               ++ (": " ++ encode_string v')) ++ rest)%string)
    by reflexivity.
  rewrite Ht.
  change (", " ++ String dquote ?x)%string with (String "," (String " " (String dquote x))).
  apply parse_member_more.
Qed.

Lemma scan_object_open (f : nat) (k v rest : string) :
  scan_once (S f) (String "{" (member k v ++ rest)%string)
  = parse_members f (member k v ++ rest)%string [].
Proof. reflexivity. Qed.

Lemma encode_length (r : SuggestionRecord) : 2 <= String.length (encode r).
Proof. unfold encode, member, encode_string. simpl. lia. Qed.

(** The text of an encoded record decodes to the object of its four fields. *)
Lemma loads_encoded (r : SuggestionRecord) :
  json_loads (encode r) =
  Some (JObj [("command", JStr (r_command r));
              ("description", JStr (r_description r));
              ("shell", JStr (r_shell r));
              ("warning", JStr (r_warning r))]).
Proof.
  unfold json_loads.
  change (skip_ws (encode r)) with (encode r).
  assert (Hf : exists k, fuel_for (encode r) = S (S (S (S (S (S k)))))).
  { exists (2 * String.length (encode r) - 4). unfold fuel_for.
    pose proof (encode_length r). lia. }
  destruct Hf as [k ->].
  unfold encode.
  change ("{" ++ ?x)%string with (String "{" x).
  rewrite scan_object_open, !parse_member_then.
  change "}"%string with (String "}" EmptyString).
  rewrite parse_member_last. reflexivity.
Qed.

(** What the structured path makes of an encoded record. *)
Lemma decode_encoded (st : Settings) (r : SuggestionRecord) :
  _parse_ai_response st (encode r) =
  Ok (if truthy (strip (r_command r))
      then Some {| command := strip (r_command r);
                   description := JStr (r_description r);
                   shell := JStr (r_shell r);
                   warning := if destructive (lower (r_command r))
                              then JStr destructive_notice
                              else JStr (r_warning r) |}
      else None).
Proof.
  unfold _parse_ai_response. rewrite loads_encoded.
  now rewrite (validate_string_command st _ (r_command r)) by reflexivity.
Qed.

(** C8 (amended).  A record whose command is not empty and carries no white
    space at its ends, and whose command holds no fragment of the deny-list
    (or whose warning already is the notice), is given back unchanged by
    encoding and decoding.  In general the decoded record has the command
    trimmed and, for a command with a fragment of the deny-list, the notice
    as its warning; a record whose command is blank decodes to nothing. *)
Theorem encode_decode_round_trip (st : Settings) (r : SuggestionRecord) :
  (strip (r_command r) = r_command r ->
   r_command r <> EmptyString ->
   destructive (lower (r_command r)) = false \/ r_warning r = destructive_notice ->
   _parse_ai_response st (encode r) = Ok (Some (as_suggestion r)))
  /\
  _parse_ai_response st (encode r) =
  Ok (if truthy (strip (r_command r))
      then Some {| command := strip (r_command r);
                   description := JStr (r_description r);
                   shell := JStr (r_shell r);
                   warning := if destructive (lower (r_command r))
                              then JStr destructive_notice
                              else JStr (r_warning r) |}
      else None).
Proof.
  split; [|apply decode_encoded].
  intros Hs Hne Hw. rewrite decode_encoded, Hs.
  apply truthy_true in Hne. rewrite Hne. unfold as_suggestion.
  destruct Hw as [-> | ->]; [reflexivity|].
  now destruct (destructive _).
Qed.

End RecordRoundTrip.

(** The record the text path makes of the reply [rm -rf /] does not survive
    the round trip: decoding puts the notice in its warning. *)
Lemma round_trip_changes_warning :
  _parse_ai_response defaults
    (encode {| r_command := "rm -rf /"; r_description := ""; r_shell := "powershell";
               r_warning := "" |})
  = Ok (Some {| command := "rm -rf /"; description := JStr EmptyString;
                shell := JStr "powershell"; warning := JStr destructive_notice |})
  /\ _parse_ai_response defaults
       (encode {| r_command := "rm -rf /"; r_description := ""; r_shell := "powershell";
                  r_warning := "" |})
     <> Ok (Some (as_suggestion
                    {| r_command := "rm -rf /"; r_description := ""; r_shell := "powershell";
                       r_warning := "" |}))
  /\ ~ (forall (st : Settings) (r : SuggestionRecord),
          _parse_ai_response st (encode r) = Ok (Some (as_suggestion r))).
Proof.
  assert (H : _parse_ai_response defaults
                (encode {| r_command := "rm -rf /"; r_description := ""; r_shell := "powershell";
                           r_warning := "" |})
              = Ok (Some {| command := "rm -rf /"; description := JStr EmptyString;
                            shell := JStr "powershell"; warning := JStr destructive_notice |}))
    by (vm_compute; reflexivity).
  split; [exact H|].
  assert (Hn : _parse_ai_response defaults
       (encode {| r_command := "rm -rf /"; r_description := ""; r_shell := "powershell";
                  r_warning := "" |})
     <> Ok (Some (as_suggestion
                    {| r_command := "rm -rf /"; r_description := ""; r_shell := "powershell";
                       r_warning := "" |}))).
  { rewrite H. vm_compute. discriminate. }
  split; [exact Hn|].
  intros Hall. apply Hn. apply Hall.
Qed.

Lemma encode_decode_round_trip_witness :
  _parse_ai_response defaults
    (encode {| r_command := qq "Get-Service -Name `Spooler`"; r_description := "One service";
               r_shell := "powershell"; r_warning := "" |})
  = Ok (Some (as_suggestion
                {| r_command := qq "Get-Service -Name `Spooler`"; r_description := "One service";
                   r_shell := "powershell"; r_warning := "" |})).
Proof.
  apply (proj1 (encode_decode_round_trip defaults
                  {| r_command := qq "Get-Service -Name `Spooler`";
                     r_description := "One service";
                     r_shell := "powershell"; r_warning := "" |})).
  - vm_compute. reflexivity.
  - vm_compute. discriminate.
  - left. vm_compute. reflexivity.
Defined.

(** ** The decoder always comes to a verdict

    The fuel [json_loads] gives to the scanner suffices for every text, so
    that [None] always stands for a text that is not JSON. *)

Section DecoderFuel.

Lemma skip_ws_length (s : string) : String.length (skip_ws s) <= String.length s.
Proof.
  induction s as [|c r IH]; simpl; [lia|]. destruct (is_ws c); simpl; lia.
Qed.

Lemma emit_some (p : string) (o : option (string * string)) (x rest : string) :
  emit p o = Some (x, rest) -> exists x', o = Some (x', rest).
Proof.
  destruct o as [[x' rest']|]; simpl; [|discriminate].
  intros H. injection H as _ <-. now exists x'.
Qed.

Lemma scanstring_shorter_upto (n : nat) :
  forall s, String.length s <= n ->
  forall pending x rest, scanstring pending s = Some (x, rest) ->
  String.length rest < String.length s.
Proof.
  induction n as [|n IH]; intros s Hn pending x rest.
  - destruct s; [discriminate | simpl in Hn; lia].
  - destruct s as [|c r]; [discriminate|]. simpl in Hn.
    assert (Hrec : forall p' x' t, String.length t <= String.length r ->
                     scanstring p' t = Some (x', rest) ->
                     String.length rest < String.length (String c r)).
    { intros p' x' t Ht H. apply IH in H; [simpl; lia | lia]. }
    simpl scanstring.
    destruct (Ascii.eqb c dquote).
    { intros H. injection H as _ <-. simpl. lia. }
    destruct (Ascii.eqb c "\").
    { destruct r as [|e r1]; [discriminate|].
      destruct (Ascii.eqb e "u").
      - destruct r1 as [|h1 [|h2 [|h3 [|h4 r2]]]]; try discriminate.
        destruct (hex4 h1 h2 h3 h4) as [u|]; [|discriminate].
        assert (Hr2 : String.length r2 <= String.length (String e (String h1 (String h2 (String h3 (String h4 r2)))))) by (simpl; lia).
        destruct pending as [hi|].
        + destruct (is_low_surrogate u); [|destruct (is_high_surrogate u)];
            intros H; apply emit_some in H as [x' H]; now apply Hrec in H.
        + destruct (is_high_surrogate u).
          * intros H. now apply Hrec in H.
          * intros H; apply emit_some in H as [x' H]; now apply Hrec in H.
      - destruct (unescape e); [|discriminate].
        intros H; apply emit_some in H as [x' H]. apply Hrec in H; [exact H | simpl; lia]. }
    destruct (nat_of_ascii c <? 32); [discriminate|].
    intros H; apply emit_some in H as [x' H]. apply Hrec in H; [exact H | lia].
Qed.

Lemma scanstring_shorter (s : string) (pending : option N) (x rest : string) :
  scanstring pending s = Some (x, rest) -> String.length rest < String.length s.
Proof. apply (scanstring_shorter_upto (String.length s)). lia. Qed.

Lemma span_digits_length (s : string) :
  String.length (snd (span_digits s)) <= String.length s.
Proof.
  induction s as [|c r IH]; simpl; [lia|].
  destruct (is_digit c); [|simpl; lia].
  destruct (span_digits r) as [d rest]. simpl in *. lia.
Qed.

Lemma scan_int_shorter (s i rest : string) :
  scan_int s = Some (i, rest) -> String.length rest < String.length s.
Proof.
  destruct s as [|c r]; [discriminate|]. simpl.
  destruct (Ascii.eqb c "0").
  - intros H. injection H as _ <-. lia.
  - destruct (is_digit c); [|discriminate].
    pose proof (span_digits_length r). destruct (span_digits r) as [d rest'].
    intros H'. injection H' as _ <-. simpl in *. lia.
Qed.

Lemma scan_frac_length (s : string) :
  String.length (snd (scan_frac s)) <= String.length s.
Proof.
  destruct s as [|c r]; simpl; [lia|].
  destruct (Ascii.eqb c "."); [|simpl; lia].
  pose proof (span_digits_length r). destruct (span_digits r) as [[|a d] rest]; simpl in *; lia.
Qed.

Lemma scan_exp_length (s : string) :
  String.length (snd (scan_exp s)) <= String.length s.
Proof.
  destruct s as [|c r]; simpl; [lia|].
  destruct (Ascii.eqb c "e" || Ascii.eqb c "E"); [|simpl; lia].
  destruct r as [|g r'].
  - simpl. lia.
  - destruct (Ascii.eqb g "+" || Ascii.eqb g "-").
    + pose proof (span_digits_length r').
      destruct (span_digits r') as [[|a d] rest]; simpl in *; lia.
    + pose proof (span_digits_length (String g r')).
      destruct (span_digits (String g r')) as [[|a d] rest]; simpl in *; lia.
Qed.

Lemma scan_number_shorter (s n rest : string) :
  scan_number s = Some (n, rest) -> String.length rest < String.length s.
Proof.
  unfold scan_number.
  assert (H : forall sign r0, String.length r0 <= String.length s ->
            match scan_int r0 with
            | Some (i, r1) =>
                let '(f, r2) := scan_frac r1 in
                let '(e, r3) := scan_exp r2 in Some ((sign ++ i ++ f ++ e)%string, r3)
            | None => None
            end = Some (n, rest) -> String.length rest < String.length s).
  { intros sign r0 Hr0. destruct (scan_int r0) as [[i r1]|] eqn:Ei; [|discriminate].
    apply scan_int_shorter in Ei.
    pose proof (scan_frac_length r1). destruct (scan_frac r1) as [f r2].
    pose proof (scan_exp_length r2). destruct (scan_exp r2) as [e r3].
    intros H'. injection H' as _ <-. simpl in *. lia. }
  destruct s as [|c r]; [apply H; lia|].
  destruct (Ascii.eqb c "-"); apply H; simpl; lia.
Qed.

Lemma strip_prefix_length (p s r : string) :
  strip_prefix p s = Some r -> String.length s = String.length p + String.length r.
Proof.
  revert s. induction p as [|a p IH]; intros s; simpl.
  - intros H. now injection H as ->.
  - destruct s as [|b s]; [discriminate|].
    destruct (Ascii.eqb a b); [|discriminate].
    intros H. apply IH in H. simpl. lia.
Qed.

Lemma scan_atom_shorter (s : string) (v : json) (rest : string) :
  scan_atom s = Scanned v rest -> String.length rest < String.length s.
Proof.
  unfold scan_atom.
  repeat match goal with
  | |- context [strip_prefix ?p s] =>
      let E := fresh "E" in
      destruct (strip_prefix p s) eqn:E;
      [apply strip_prefix_length in E; intros H; injection H as _ <-; simpl in E; lia|]
  end.
  destruct (scan_number s) as [[n r]|] eqn:En; [|discriminate].
  intros H. injection H as _ <-. now apply scan_number_shorter in En.
Qed.

Lemma scan_atom_verdict (s : string) : scan_atom s <> OutOfFuel.
Proof.
  unfold scan_atom.
  repeat match goal with
  | |- context [strip_prefix ?p s] => destruct (strip_prefix p s); [discriminate|]
  end.
  destruct (scan_number s) as [[n r]|]; discriminate.
Qed.

Lemma parse_elements_eq (f : nat) (s : string) (acc : list json) :
  parse_elements (S f) s acc =
  match scan_once f s with
  | Scanned v r1 =>
      match skip_ws r1 with
      | EmptyString => Malformed
      | String c2 r2 =>
          if Ascii.eqb c2 "]" then Scanned (JArr (acc ++ [v])) r2
          else if Ascii.eqb c2 ","
          then parse_elements f (skip_ws r2) (acc ++ [v])
          else Malformed
      end
  | Malformed => Malformed
  | OutOfFuel => OutOfFuel
  end.
Proof. reflexivity. Qed.

Lemma skip_ws_tail (r : string) (c : ascii) (t : string) :
  skip_ws r = String c t -> String.length t < String.length r.
Proof. intros E. pose proof (skip_ws_length r) as H. rewrite E in H. simpl in H. lia. Qed.

(** A value that is read leaves less text than there was. *)
Lemma scan_shorter (f : nat) :
  (forall s v rest, scan_once f s = Scanned v rest ->
     String.length rest < String.length s) /\
  (forall s acc v rest, parse_members f s acc = Scanned v rest ->
     String.length rest < String.length s) /\
  (forall s acc v rest, parse_elements f s acc = Scanned v rest ->
     String.length rest < String.length s).
Proof.
  induction f as [|f (IH1 & IH2 & IH3)]; [repeat split; intros; discriminate|].
  split; [|split].
  - intros [|c r] v rest; [intros H; discriminate H|]. rewrite scan_once_eq.
    destruct (Ascii.eqb c dquote).
    { destruct (scanstring None r) as [[x rest']|] eqn:E; [|discriminate].
      intros H. injection H as _ <-. apply scanstring_shorter in E. simpl. lia. }
    destruct (Ascii.eqb c "{").
    { destruct (skip_ws r) as [|c1 r1] eqn:E; [discriminate|].
      pose proof (skip_ws_length r) as Hl. rewrite E in Hl.
      destruct (Ascii.eqb c1 "}").
      - intros H. injection H as _ <-. simpl in *. lia.
      - intros H. apply IH2 in H. simpl in *. lia. }
    destruct (Ascii.eqb c "[").
    { destruct (skip_ws r) as [|c1 r1] eqn:E; [discriminate|].
      pose proof (skip_ws_length r) as Hl. rewrite E in Hl.
      destruct (Ascii.eqb c1 "]").
      - intros H. injection H as _ <-. simpl in *. lia.
      - intros H. apply IH3 in H. simpl in *. lia. }
    apply scan_atom_shorter.
  - intros [|c r] acc v rest; [intros H; discriminate H|]. rewrite parse_members_eq.
    destruct (Ascii.eqb c dquote); [|discriminate].
    destruct (scanstring None r) as [[k r1]|] eqn:E1; [|discriminate].
    apply scanstring_shorter in E1.
    destruct (skip_ws r1) as [|c2 r2] eqn:E2; [discriminate|].
    apply skip_ws_tail in E2.
    destruct (Ascii.eqb c2 ":"); [|discriminate].
    pose proof (skip_ws_length r2) as Hl2.
    destruct (scan_once f (skip_ws r2)) as [v' r3| |] eqn:E3; try discriminate.
    apply IH1 in E3.
    destruct (skip_ws r3) as [|c4 r4] eqn:E4; [discriminate|].
    apply skip_ws_tail in E4.
    destruct (Ascii.eqb c4 "}").
    + intros H. injection H as _ <-. simpl. lia.
    + destruct (Ascii.eqb c4 ","); [|discriminate].
      intros H. apply IH2 in H. pose proof (skip_ws_length r4). simpl. lia.
  - intros s acc v rest. rewrite parse_elements_eq.
    destruct (scan_once f s) as [v' r1| |] eqn:E1; try discriminate.
    apply IH1 in E1.
    destruct (skip_ws r1) as [|c2 r2] eqn:E2; [discriminate|].
    apply skip_ws_tail in E2.
    destruct (Ascii.eqb c2 "]").
    + intros H. injection H as _ <-. lia.
    + destruct (Ascii.eqb c2 ","); [|discriminate].
      intros H. apply IH3 in H. pose proof (skip_ws_length r2). lia.
Qed.

(** With fuel for the length of the text the scanner never runs out. *)
Lemma scan_verdict (f : nat) :
  (forall s, 2 * String.length s + 1 <= f -> scan_once f s <> OutOfFuel) /\
  (forall s acc, 2 * String.length s + 2 <= f -> parse_members f s acc <> OutOfFuel) /\
  (forall s acc, 2 * String.length s + 2 <= f -> parse_elements f s acc <> OutOfFuel).
Proof.
  induction f as [|f (IH1 & IH2 & IH3)]; [repeat split; intros; lia|].
  split; [|split].
  - intros [|c r] Hf; [discriminate|]. rewrite scan_once_eq. simpl in Hf.
    destruct (Ascii.eqb c dquote).
    { destruct (scanstring None r) as [[x rest']|]; discriminate. }
    destruct (Ascii.eqb c "{").
    { destruct (skip_ws r) as [|c1 r1] eqn:E; [discriminate|].
      pose proof (skip_ws_length r) as Hl. rewrite E in Hl.
      destruct (Ascii.eqb c1 "}"); [discriminate|].
      apply IH2. simpl in *. lia. }
    destruct (Ascii.eqb c "[").
    { destruct (skip_ws r) as [|c1 r1] eqn:E; [discriminate|].
      pose proof (skip_ws_length r) as Hl. rewrite E in Hl.
      destruct (Ascii.eqb c1 "]"); [discriminate|].
      apply IH3. simpl in *. lia. }
    apply scan_atom_verdict.
  - intros [|c r] acc Hf; [discriminate|]. rewrite parse_members_eq. simpl in Hf.
    destruct (Ascii.eqb c dquote); [|discriminate].
    destruct (scanstring None r) as [[k r1]|] eqn:E1; [|discriminate].
    apply scanstring_shorter in E1.
    destruct (skip_ws r1) as [|c2 r2] eqn:E2; [discriminate|].
    apply skip_ws_tail in E2.
    destruct (Ascii.eqb c2 ":"); [|discriminate].
    pose proof (skip_ws_length r2) as Hl2.
    destruct (scan_once f (skip_ws r2)) as [v' r3| |] eqn:E3; try discriminate.
    + apply (proj1 (scan_shorter f)) in E3.
      destruct (skip_ws r3) as [|c4 r4] eqn:E4; [discriminate|].
      apply skip_ws_tail in E4.
      destruct (Ascii.eqb c4 "}"); [discriminate|].
      destruct (Ascii.eqb c4 ","); [|discriminate].
      apply IH2. pose proof (skip_ws_length r4). lia.
    + exfalso. apply (IH1 (skip_ws r2)); [lia | exact E3].
  - intros s acc Hf. rewrite parse_elements_eq.
    destruct (scan_once f s) as [v' r1| |] eqn:E1; try discriminate.
    + apply (proj1 (scan_shorter f)) in E1.
      destruct (skip_ws r1) as [|c2 r2] eqn:E2; [discriminate|].
      apply skip_ws_tail in E2.
      destruct (Ascii.eqb c2 "]"); [discriminate|].
      destruct (Ascii.eqb c2 ","); [|discriminate].
      apply IH3. pose proof (skip_ws_length r2). lia.
    + exfalso. apply (IH1 s); [lia | exact E1].
Qed.

Lemma json_loads_verdict (s : string) :
  scan_once (fuel_for (skip_ws s)) (skip_ws s) <> OutOfFuel.
Proof. apply scan_verdict. unfold fuel_for. lia. Qed.

End DecoderFuel.

(** * Further properties *)

Import Startup Interactive Views.

(** ** The engine without a usable backend *)

Section EngineDispatch.

Lemma init_settings (be : Backend) (st : Settings) : settings (__init__ be st) = st.
Proof.
  unfold __init__.
  destruct (_ && _); [reflexivity|]. destruct (_ && _); reflexivity.
Qed.

(** X1.  With no key for either backend, no backend is asked, whatever the
    provider: the record of the fallback matcher is returned. *)
Theorem no_key_means_fallback (be : Backend) (st : Settings) (user_request : string) :
  key_set (openai_api_key st) = false ->
  key_set (gemini_api_key st) = false ->
  backend_reply be (__init__ be st) user_request = None /\
  suggest_command be (__init__ be st) user_request
  = Some (_get_fallback_suggestion user_request).
Proof.
  intros H1 H2.
  assert (Hi : __init__ be st
               = {| settings := st; openai_client := false; gemini_model := None |}).
  { unfold __init__. now rewrite H1, H2, !andb_false_r. }
  assert (Hr : backend_reply be (__init__ be st) user_request = None).
  { rewrite Hi. unfold backend_reply. simpl.
    destruct (String.eqb (ai_provider st) "fallback"); [reflexivity|].
    now rewrite andb_false_r. }
  split; [exact Hr|]. now rewrite suggest_command_cases, Hr.
Qed.

(** X2.  A reply that decodes to an object whose [command] is not a string
    makes the validation raise; the engine catches it and returns the record
    of the fallback matcher. *)
Theorem non_string_command_means_fallback
  (be : Backend) (ai : CommandAI) (user_request content : string) (d : dict) (v : json) :
  backend_reply be ai user_request = Some (Ok content) ->
  json_loads (strip content) = Some (JObj d) ->
  dict_get "command" d = Some v ->
  (forall c, v <> JStr c) ->
  _parse_ai_response (settings ai) (strip content) = Raise AttributeError /\
  suggest_command be ai user_request = Some (_get_fallback_suggestion user_request).
Proof.
  intros Hr Hj Hc Hv.
  assert (Hp : _parse_ai_response (settings ai) (strip content) = Raise AttributeError).
  { unfold _parse_ai_response. rewrite Hj. simpl. rewrite Hc.
    destruct v; try reflexivity. now elim (Hv s). }
  split; [exact Hp|]. now rewrite suggest_command_cases, Hr, Hp.
Qed.

(** X3.  The model handed to the second backend is the configured one when
    its name begins with [gemini], and [gemini-pro] otherwise; so its name
    always begins with [gemini]. *)
Theorem gemini_model_name (be : Backend) (st : Settings) (model_name : string) :
  gemini_model (__init__ be st) = Some model_name ->
  startswith model_name "gemini" = true /\
  (startswith (ai_model st) "gemini" = true -> model_name = ai_model st) /\
  (startswith (ai_model st) "gemini" = false -> model_name = "gemini-pro"%string).
Proof.
  unfold __init__.
  destruct (_ && _); [discriminate|]. destruct (_ && _); [|discriminate].
  cbn [gemini_model].
  destruct (startswith (ai_model st) "gemini") eqn:E; intros H; injection H as <-.
  - split; [exact E|]. split; [reflexivity | discriminate].
  - split; [reflexivity|]. split; [discriminate | reflexivity].
Qed.

(** The record [_validate_suggestion] returns. *)
Lemma validate_some_record (st : Settings) (v : json) (r : Suggestion) :
  _validate_suggestion st v = Ok (Some r) ->
  exists d c,
    v = JObj d /\ dict_get "command" d = Some (JStr c) /\
    truthy (strip c) = true /\
    r = {| command := strip c;
           description := dict_get_default "description" (JStr "") d;
           shell := dict_get_default "shell" (JStr (default_shell st)) d;
           warning := if destructive (lower c)
                      then JStr destructive_notice
                      else dict_get_default "warning" (JStr "") d |}.
Proof.
  destruct v as [| | | | |d]; try discriminate.
  destruct (dict_get "command" d) as [cv|] eqn:E; [|simpl; rewrite E; discriminate].
  destruct cv as [| | |c| |]; try (simpl; rewrite E; discriminate).
  rewrite (validate_string_command st d c E).
  destruct (truthy (strip c)) eqn:Et; [|discriminate].
  intros H. injection H as <-. exists d, c. repeat split; assumption.
Qed.

(** X4.  The validation changes nothing in a record it has let through:
    validating its result again gives the same record. *)
Theorem validate_is_idempotent (st : Settings) (v : json) (r : Suggestion) :
  _validate_suggestion st v = Ok (Some r) ->
  _validate_suggestion st (JObj (as_dict r)) = Ok (Some r).
Proof.
  intros H. apply validate_some_record in H as (d & c & -> & Hc & Ht & ->).
  rewrite (validate_string_command st _ (strip c)) by reflexivity.
  rewrite strip_idem, Ht, destructive_lower_strip.
  unfold as_dict, dict_get_default. simpl.
  now destruct (destructive (lower c)).
Qed.

End EngineDispatch.

Lemma no_key_means_fallback_witness :
  backend_reply (replying "ls") (__init__ (replying "ls") defaults) "disk space" = None /\
  suggest_command (replying "ls") (__init__ (replying "ls") defaults) "disk space"
  = Some (_get_fallback_suggestion "disk space").
Proof.
  apply (no_key_means_fallback (replying "ls") defaults "disk space"); reflexivity.
Defined.

Lemma non_string_command_means_fallback_witness :
  _parse_ai_response
    (settings (__init__ (replying (qq "{`command`: null}")) openai_settings))
    (strip (qq "{`command`: null}")) = Raise AttributeError /\
  suggest_command (replying (qq "{`command`: null}"))
    (__init__ (replying (qq "{`command`: null}")) openai_settings) "disk space"
  = Some (_get_fallback_suggestion "disk space").
Proof.
  apply (non_string_command_means_fallback (replying (qq "{`command`: null}"))
           (__init__ (replying (qq "{`command`: null}")) openai_settings)
           "disk space" (qq "{`command`: null}") [("command", JNull)] JNull).
  - vm_compute. reflexivity.
  - vm_compute. reflexivity.
  - reflexivity.
  - discriminate.
Defined.

Lemma gemini_model_name_witness :
  gemini_model
    (__init__ (replying "ls")
       {| ai_provider := "gemini"; openai_api_key := None; gemini_api_key := Some "k";
          ai_model := "gemini-1.5-flash"; openai_model := "gpt-3.5-turbo";
          default_shell := "powershell" |}) = Some "gemini-1.5-flash"%string /\
  startswith "gemini-1.5-flash" "gemini" = true /\
  (startswith "gemini-1.5-flash" "gemini" = true ->
   "gemini-1.5-flash"%string = "gemini-1.5-flash"%string) /\
  (startswith "gemini-1.5-flash" "gemini" = false ->
   "gemini-1.5-flash"%string = "gemini-pro"%string).
Proof.
  split; [vm_compute; reflexivity|].
  apply (gemini_model_name (replying "ls")
           {| ai_provider := "gemini"; openai_api_key := None; gemini_api_key := Some "k";
              ai_model := "gemini-1.5-flash"; openai_model := "gpt-3.5-turbo";
              default_shell := "powershell" |} "gemini-1.5-flash").
  vm_compute. reflexivity.
Defined.

Lemma validate_is_idempotent_witness :
  _validate_suggestion defaults
    (JObj (as_dict {| command := "format c:"; description := JStr "wipe";
                      shell := JStr "powershell";
                      warning := JStr destructive_notice |}))
  = Ok (Some {| command := "format c:"; description := JStr "wipe";
                shell := JStr "powershell"; warning := JStr destructive_notice |}).
Proof.
  apply (validate_is_idempotent defaults
           (JObj [("command", JStr "  format c: "); ("description", JStr "wipe")])).
  vm_compute. reflexivity.
Defined.

(** ** More on the line-oriented extraction *)

Section TextLines.

Variable st : Settings.

Lemma split_nonempty (sep : ascii) (s : string) : split sep s <> [].
Proof.
  induction s as [|c r IH]; simpl; [discriminate|].
  destruct (Ascii.eqb c sep); [discriminate|].
  destruct (split sep r); [contradiction | discriminate].
Qed.

Lemma split_app (sep : ascii) (a b : string) :
  split sep (a ++ String sep b)%string = split sep a ++ split sep b.
Proof.
  induction a as [|c r IH]; simpl.
  - now rewrite Ascii.eqb_refl.
  - destruct (Ascii.eqb c sep); [now rewrite IH|].
    rewrite IH. pose proof (split_nonempty sep r) as Hne.
    destruct (split sep r); [contradiction | reflexivity].
Qed.

Lemma split_no_sep (sep : ascii) (s : string) :
  contains (String sep EmptyString) s = false -> split sep s = [s].
Proof.
  induction s as [|c r IH]; [reflexivity|].
  rewrite contains_cons. simpl. rewrite (Ascii.eqb_sym sep c).
  destruct (Ascii.eqb c sep); simpl; [discriminate|].
  intros H. now rewrite (IH H).
Qed.

Lemma rstrip_nonspace (c : ascii) (r : string) :
  is_space c = false -> rstrip (String c r) = String c (rstrip r).
Proof. intros E. rewrite rstrip_cons, E. now destruct (rstrip r). Qed.

Lemma lstrip_rstrip (s : string) : lstrip (rstrip s) = rstrip (lstrip s).
Proof.
  induction s as [|c r IH]; [reflexivity|].
  destruct (is_space c) eqn:E.
  - simpl lstrip at 2. rewrite E, <- IH, rstrip_cons.
    destruct (rstrip r); simpl; now rewrite E.
  - rewrite (lstrip_nonspace_head c r E), rstrip_nonspace by exact E.
    now apply lstrip_nonspace_head.
Qed.

Lemma strip_rstrip (s : string) : strip (rstrip s) = strip s.
Proof. unfold strip. now rewrite lstrip_rstrip, rstrip_idem. Qed.

Lemma strip_label (label v : string) :
  label = "Command:"%string \/ label = "command:"%string ->
  strip (label ++ v)%string = (label ++ rstrip v)%string.
Proof.
  intros [-> | ->]; unfold strip; cbn [append];
    rewrite lstrip_nonspace_head by reflexivity;
    now rewrite !rstrip_nonspace by reflexivity.
Qed.

(** The last line of a reply, when it is a command label with the value [v]. *)
Lemma label_line_step (label v : string) (acc : string * string) :
  label = "Command:"%string \/ label = "command:"%string ->
  extract_step as_spelled acc (label ++ v)%string = (strip v, snd acc).
Proof.
  intros Hl. unfold extract_step. rewrite (strip_label label v Hl).
  destruct Hl as [-> | ->].
  - change (as_spelled "command:" ("Command:" ++ rstrip v)%string) with (Some (rstrip v)).
    cbv beta iota. now rewrite strip_rstrip.
  - change (as_spelled "command:" ("command:" ++ rstrip v)%string) with (Some (rstrip v)).
    cbv beta iota. now rewrite strip_rstrip.
Qed.

Lemma text_ending_with_label (label content v : string) :
  label = "Command:"%string \/ label = "command:"%string ->
  contains Prompts.nl v = false ->
  _parse_text_response st (content ++ Prompts.nl ++ label ++ v)%string =
  Ok (if truthy (strip v)
      then Some {| command := strip v;
                   description :=
                     JStr (snd (fold_left (extract_step as_spelled) (split "010" content)
                                  (EmptyString, EmptyString)));
                   shell := JStr (default_shell st);
                   warning := JStr EmptyString |}
      else None).
Proof.
  intros Hl Hv. rewrite parse_text_response_spelled. unfold extract.
  change (Prompts.nl ++ label ++ v)%string with (String "010" (label ++ v))%string.
  rewrite split_app.
  assert (Hs : split "010" (label ++ v)%string = [(label ++ v)%string]).
  { apply split_no_sep. destruct Hl as [-> | ->]; exact Hv. }
  rewrite Hs, fold_left_app. cbn [fold_left].
  rewrite (label_line_step label v _ Hl). cbn [fst snd].
  rewrite eqb_empty. now destruct (truthy (strip v)).
Qed.

(** X5.  A command label on the last line decides: whatever command the
    lines before it gave, the record carries the value of that label. *)
Theorem last_label_overrides (label content v : string) :
  label = "Command:"%string \/ label = "command:"%string ->
  contains Prompts.nl v = false ->
  strip v <> EmptyString ->
  exists r : Suggestion,
    _parse_text_response st (content ++ Prompts.nl ++ label ++ v)%string = Ok (Some r)
    /\ command r = strip v.
Proof.
  intros Hl Hv Hne. rewrite (text_ending_with_label label content v Hl Hv).
  apply truthy_true in Hne. rewrite Hne. eexists. split; reflexivity.
Qed.

(** X6.  A command label with nothing after it, on the last line, wipes the
    command found before: such a reply gives no record. *)
Theorem empty_label_discards_command (label content v : string) :
  label = "Command:"%string \/ label = "command:"%string ->
  contains Prompts.nl v = false ->
  strip v = EmptyString ->
  _parse_text_response st (content ++ Prompts.nl ++ label ++ v)%string = Ok None.
Proof.
  intros Hl Hv He. rewrite (text_ending_with_label label content v Hl Hv).
  now rewrite He.
Qed.

Lemma startswith_head_neq (a c : ascii) (p r : string) :
  Ascii.eqb a c = false -> startswith (String c r) (String a p) = false.
Proof. intros E. simpl. now rewrite E. Qed.

Lemma idle_step (acc : string * string) (raw : string) :
  idle_line raw = true -> fst acc = EmptyString ->
  fst (extract_step as_spelled acc raw) = EmptyString.
Proof.
  unfold idle_line, extract_step, as_spelled.
  change (capital "command:") with "Command:"%string.
  change (capital "description:") with "Description:"%string.
  generalize (strip raw). intros line H Hacc.
  destruct line as [|c r]; [now rewrite Hacc|].
  change (String.eqb (String c r) "") with false in H. cbn [orb] in H.
  destruct (startswith (String c r) "#") eqn:E1.
  { change (startswith (String c r) "#") with (Ascii.eqb "#" c && true) in E1.
    rewrite andb_true_r in E1. apply Ascii.eqb_eq in E1 as <-.
    rewrite !startswith_head_neq by reflexivity.
    change (startswith (String "#" r) "#") with true.
    cbn [orb negb]. now rewrite andb_false_r. }
  cbn [orb] in H.
  apply orb_prop in H as [H | H]; apply startswith_split in H; rewrite H; cbn [append].
  - rewrite !(startswith_head_neq _ "D") by reflexivity. cbn [orb].
    change (startswith (String "D" ?x) "Description:") with true. exact Hacc.
  - rewrite !(startswith_head_neq _ "d") by reflexivity. cbn [orb].
    change (startswith (String "d" ?x) "description:") with true. exact Hacc.
Qed.

Lemma idle_fold (lines : list string) (acc : string * string) :
  forallb idle_line lines = true -> fst acc = EmptyString ->
  fst (fold_left (extract_step as_spelled) lines acc) = EmptyString.
Proof.
  revert acc. induction lines as [|raw rest IH]; intros acc H Hacc; [exact Hacc|].
  simpl in H. apply andb_prop in H as [H1 H2].
  simpl. apply IH; [exact H2 | now apply idle_step].
Qed.

(** X7.  A reply made only of blank lines, comments and description lines
    gives no record; the empty reply is one of them. *)
Theorem idle_reply_gives_nothing (content : string) :
  forallb idle_line (split "010" content) = true ->
  _parse_text_response st content = Ok None.
Proof.
  intros H. rewrite parse_text_response_spelled. unfold extract.
  now rewrite (idle_fold _ (EmptyString, EmptyString) H eq_refl).
Qed.

End TextLines.

Lemma last_label_overrides_witness :
  exists r : Suggestion,
    _parse_text_response defaults
      ("Get-Process" ++ Prompts.nl ++ "command:" ++ " Get-Service ")%string = Ok (Some r)
    /\ command r = strip " Get-Service ".
Proof.
  apply (last_label_overrides defaults "command:" "Get-Process" " Get-Service ").
  - now right.
  - vm_compute. reflexivity.
  - vm_compute. discriminate.
Defined.

Lemma empty_label_discards_command_witness :
  _parse_text_response defaults ("Get-Process" ++ Prompts.nl ++ "Command:" ++ "  ")%string
  = Ok None.
Proof.
  apply (empty_label_discards_command defaults "Command:" "Get-Process" "  ").
  - now left.
  - vm_compute. reflexivity.
  - vm_compute. reflexivity.
Defined.

Lemma idle_reply_gives_nothing_witness :
  _parse_text_response defaults "# nothing to run

Description: no command here" = Ok None.
Proof.
  apply (idle_reply_gives_nothing defaults). vm_compute. reflexivity.
Defined.

(** ** More on the fallback matcher *)

Section FallbackMore.

Lemma triggers_nonempty :
  forallb (fun rule : PatternRule =>
             forallb (fun phrase => 0 <? String.length phrase) (fst rule))
    suggestions = true.
Proof. vm_compute. reflexivity. Qed.

Lemma list_sum_member (x : nat) (l : list nat) : In x l -> x <= list_sum l.
Proof.
  induction l as [|y l IH]; intros H; [destruct H|].
  simpl. destruct H as [-> | H]; [lia | apply IH in H; lia].
Qed.

Lemma occurring_phrase_scores (request phrase : string) (rule : PatternRule) :
  In rule suggestions -> In phrase (fst rule) ->
  contains phrase request = true -> 0 < score request rule.
Proof.
  intros Hr Hp Hc.
  pose proof triggers_nonempty as Ht. rewrite forallb_forall in Ht.
  specialize (Ht rule Hr). rewrite forallb_forall in Ht.
  specialize (Ht phrase Hp). apply Nat.ltb_lt in Ht.
  unfold score.
  assert (Hin : In (phrase_score request phrase) (map (phrase_score request) (fst rule)))
    by now apply in_map.
  apply list_sum_member in Hin. unfold phrase_score at 1 in Hin. rewrite Hc in Hin. lia.
Qed.

Lemma no_phrase_no_score (request : string) (rule : PatternRule) :
  (forall phrase, In phrase (fst rule) -> contains phrase request = false) ->
  score request rule = 0.
Proof.
  unfold score. induction (fst rule) as [|p ps IH]; intros H; [reflexivity|].
  simpl. unfold phrase_score at 1. rewrite (H p) by now left.
  simpl. apply IH. intros q Hq. apply H. now right.
Qed.

Lemma matched_is_no_placeholder (t : Template) (user_request : string) :
  matched t <> placeholder user_request.
Proof. intros H. apply (f_equal warning) in H. discriminate H. Qed.

(** X8.  The placeholder is returned exactly when no trigger phrase of the
    table occurs in the lower-cased request: one occurrence of one phrase is
    enough for a template of the table to come back. *)
Theorem placeholder_iff_no_trigger (user_request : string) :
  _get_fallback_suggestion user_request = placeholder user_request
  <->
  (forall rule phrase, In rule suggestions -> In phrase (fst rule) ->
     contains phrase (lower user_request) = false).
Proof.
  split.
  - intros H rule phrase Hr Hp.
    destruct (contains phrase (lower user_request)) eqn:Hc; [exfalso | reflexivity].
    pose proof (occurring_phrase_scores _ _ _ Hr Hp Hc) as Hpos.
    destruct (first_max_exists (lower user_request) suggestions)
      as (pre & best & post & Heq & Hb & Hpre & Hpost).
    { now exists rule. }
    unfold _get_fallback_suggestion in H. rewrite Heq in H.
    rewrite (best_loop_first_max (lower user_request) pre post best None 0 Hpre Hpost Hb)
      in H.
    now apply matched_is_no_placeholder in H.
  - intros H. apply fallback_placeholder.
    intros rule Hr. apply no_phrase_no_score. intros phrase Hp. now apply (H rule).
Qed.

(** X9.  The matcher does not look at the letter case of the request: two
    requests that agree once lower-cased get the same template, or each its
    own placeholder. *)
Theorem fallback_ignores_case (a b : string) :
  lower a = lower b ->
  _get_fallback_suggestion a = _get_fallback_suggestion b
  \/ (_get_fallback_suggestion a = placeholder a
      /\ _get_fallback_suggestion b = placeholder b).
Proof.
  intros H. unfold _get_fallback_suggestion. rewrite H.
  destruct (fst (best_loop (lower b) suggestions (None, 0))); [now left | now right].
Qed.

End FallbackMore.

Lemma fallback_ignores_case_witness :
  _get_fallback_suggestion "Show DISK Space" = _get_fallback_suggestion "show disk space"
  \/ (_get_fallback_suggestion "Show DISK Space" = placeholder "Show DISK Space"
      /\ _get_fallback_suggestion "show disk space" = placeholder "show disk space").
Proof.
  apply (fallback_ignores_case "Show DISK Space" "show disk space").
  vm_compute. reflexivity.
Defined.

(** ** The settings at the start *)

Section StartupSettings.

Variable env : Env.
Variable self : Settings.

Lemma validate_provider (st : Settings) :
  mem (ai_provider (_validate st)) valid_providers = true.
Proof.
  unfold _validate. cbn [ai_provider].
  destruct (mem (ai_provider st) valid_providers) eqn:E; [exact E | reflexivity].
Qed.

Lemma validate_idempotent (st : Settings) : _validate (_validate st) = _validate st.
Proof.
  pose proof (validate_provider st) as Hp.
  pose proof (validated_settings_shell st) as Hs.
  unfold _validate at 1. rewrite Hp, Hs. now destruct (_validate st).
Qed.

(** X10.  Whatever the environment holds, the settings the application
    starts with name a known provider and one of the two shells, and a
    further validation leaves them as they are. *)
Theorem startup_settings_valid :
  mem (ai_provider (fst (__post_init__ env self))) valid_providers = true
  /\ mem (default_shell (fst (__post_init__ env self))) valid_shells = true
  /\ _validate (fst (__post_init__ env self)) = fst (__post_init__ env self).
Proof.
  unfold __post_init__. cbn [fst].
  split; [apply validate_provider|].
  split; [apply validated_settings_shell | apply validate_idempotent].
Qed.

Lemma other_provider_fallback (be : Backend) (st : Settings) (user_request : string) :
  String.eqb (ai_provider st) "openai" = false ->
  String.eqb (ai_provider st) "gemini" = false ->
  suggest_command be (__init__ be st) user_request
  = Some (_get_fallback_suggestion user_request).
Proof.
  intros H1 H2.
  assert (Hi : __init__ be st
               = {| settings := st; openai_client := false; gemini_model := None |}).
  { unfold __init__. now rewrite H1, H2. }
  rewrite Hi. unfold suggest_command. cbn [settings openai_client gemini_model].
  rewrite H1. now destruct (String.eqb (ai_provider st) "fallback").
Qed.

(** X11.  When the provider read from the environment is neither of the two
    backends (another known name, or an unknown one, which the validation
    turns into [fallback]), every request is answered by the fallback
    matcher, keys or no keys. *)
Theorem other_provider_answers_by_fallback (be : Backend) (user_request : string) :
  mem (lower (getenv env "AI_PROVIDER" (ai_provider self))) ["openai"; "gemini"] = false ->
  suggest_command be (__init__ be (fst (__post_init__ env self))) user_request
  = Some (_get_fallback_suggestion user_request).
Proof.
  intros H. unfold mem in H. cbn [existsb] in H.
  apply orb_false_elim in H as [H1 H]. apply orb_false_elim in H as [H2 _].
  apply other_provider_fallback; unfold __post_init__, _validate; cbn [fst ai_provider];
    destruct (mem _ valid_providers); (assumption || reflexivity).
Qed.

End StartupSettings.

Lemma other_provider_answers_by_fallback_witness :
  suggest_command (replying "ls")
    (__init__ (replying "ls")
       (fst (__post_init__
               (env_of [("AI_PROVIDER", "Ollama"); ("OPENAI_API_KEY", "sk-test")])
               defaults)))
    "disk space"
  = Some (_get_fallback_suggestion "disk space").
Proof.
  apply (other_provider_answers_by_fallback
           (env_of [("AI_PROVIDER", "Ollama"); ("OPENAI_API_KEY", "sk-test")])
           defaults (replying "ls") "disk space").
  vm_compute. reflexivity.
Defined.

(** ** More on the executors *)

Section ExecutorsMore.

Variable os : OS.










End ExecutorsMore.






(** ** Scripts and their temporary file *)

Section Scripts.

Variable w : PythonHandler.World.




End Scripts.


(** ** The confirmation dialogue *)

Section Dialogue.

Lemma confirm_run (inputs : list keyboard) (command chosen : string) :
  confirm inputs command = Run chosen ->
  chosen = command /\
  exists before line after,
    inputs = before ++ Typed line :: after /\
    says_yes line = true /\
    forall k, In k before -> exists l, k = Typed l /\ says_other l = true.
Proof.
  induction inputs as [|k rest IH]; [discriminate|].
  destruct k as [line|]; [|discriminate].
  simpl. destruct (String.eqb (lower (strip line)) "y" || String.eqb (lower (strip line)) "yes") eqn:Ey.
  - intros H. injection H as <-. split; [reflexivity|].
    exists [], line, rest. repeat split; [exact Ey|]. intros k [].
  - destruct (String.eqb (lower (strip line)) "n" || String.eqb (lower (strip line)) "no") eqn:En;
      [discriminate|].
    destruct (String.eqb (lower (strip line)) "copy") eqn:Ec; [discriminate|].
    intros H. apply IH in H as (-> & before & l & after & -> & Hy & Hb).
    split; [reflexivity|].
    exists (Typed line :: before), l, after. repeat split; [exact Hy|].
    intros k [<- | Hk]; [|now apply Hb].
    exists line. split; [reflexivity|].
    unfold says_other. cbn [existsb].
    apply orb_false_elim in Ey as [-> ->]. apply orb_false_elim in En as [-> ->].
    now rewrite Ec.
Qed.

Lemma suggested_command_nonempty (be : Backend) (ai : CommandAI) (user_input : string)
  (r : Suggestion) :
  suggest_command be ai user_input = Some r -> strip (command r) <> EmptyString.
Proof.
  rewrite suggest_command_cases.
  assert (Hfb : forall r', Some (_get_fallback_suggestion user_input) = Some r' ->
                           strip (command r') <> EmptyString).
  { intros r' H. injection H as <-. apply fallback_record_invariant. }
  destruct (backend_reply be ai user_input) as [[content|e]|]; try apply Hfb.
  destruct (_parse_ai_response (settings ai) (strip content)) as [o|e] eqn:E;
    [|apply Hfb].
  intros ->. apply parsed_record_command in E as [E1 E2]. now rewrite E1.
Qed.

(** X16.  The dialogue hands a command over for execution only when the
    engine gave a suggestion and the user typed [y] or [yes] (in any casing,
    with blanks around it) after answers that were none of the five known
    ones; the command is then that of the suggestion, not empty once
    trimmed, and nothing is put on the clip board. *)
Theorem nothing_runs_without_yes
  (be : Backend) (ai : CommandAI) (user_input : string) (inputs : list keyboard)
  (chosen : string) :
  process_command be ai user_input inputs = Some chosen ->
  (exists r, suggest_command be ai user_input = Some r /\ chosen = command r)
  /\ strip chosen <> EmptyString
  /\ (exists before line after,
        inputs = before ++ Typed line :: after /\
        says_yes line = true /\
        forall k, In k before -> exists l, k = Typed l /\ says_other l = true)
  /\ (forall pyperclip, copied pyperclip be ai user_input inputs = None).
Proof.
  unfold process_command, copied, dialogue.
  destruct (suggest_command be ai user_input) as [r|] eqn:Es; [|discriminate].
  destruct (confirm inputs (command r)) as [c|c|] eqn:Ec; try discriminate.
  intros H. injection H as <-.
  apply confirm_run in Ec as (-> & Hex).
  split; [now exists r|]. split; [exact (suggested_command_nonempty _ _ _ _ Es)|].
  split; [exact Hex | reflexivity].
Qed.

End Dialogue.

Lemma nothing_runs_without_yes_witness :
  (exists r,
     suggest_command (replying "ls") (__init__ (replying "ls") defaults) "disk space"
     = Some r /\
     t_command (snd (nth 6 suggestions ([], {| t_command := ""; t_description := "";
                                               t_shell := "" |}))) = command r)
  /\ strip (t_command (snd (nth 6 suggestions ([], {| t_command := ""; t_description := "";
                                                      t_shell := "" |})))) <> EmptyString
  /\ (exists before line after,
        [Typed "maybe"; Typed " YES "; Typed "n"] = before ++ Typed line :: after /\
        says_yes line = true /\
        forall k, In k before -> exists l, k = Typed l /\ says_other l = true)
  /\ (forall pyperclip,
        copied pyperclip (replying "ls") (__init__ (replying "ls") defaults) "disk space"
          [Typed "maybe"; Typed " YES "; Typed "n"] = None).
Proof.
  apply (nothing_runs_without_yes (replying "ls") (__init__ (replying "ls") defaults)
           "disk space" [Typed "maybe"; Typed " YES "; Typed "n"]).
  vm_compute. reflexivity.
Defined.
